(** * BlogAPI: the service layer over its relational store

    A shallow embedding of [App/models.py], [App/services.py], the
    request schemas of [App/schemas.py], the decorators of [App/auth.py]
    and the handlers of [App/routes.py] that write to the store or read a
    vote.

    The relational store is a record of four tables, each a list of rows in
    insertion (rowid) order.  A service call runs one transaction to its
    commit or rollback, so every operation is a function from a store to a
    store and a result.  What the services read from outside the store is an
    argument of the operation: the clock ([datetime.utcnow()]) is [now], the
    salt drawn by bcrypt is [salt].

    What the database and bcrypt decide is an instance of the class
    [Externals]: the hash and the check of a password, or the exception
    bcrypt raises; the order of the rows that compare equal under an ORDER
    BY; the unique index reported when an INSERT violates two.

    Integers are Python ints, unbounded; an INTEGER of SQLite holds 64
    bits, and binding an int beyond them raises.  This is modelled for the
    ids that come from a URL (the post id of every service), for the
    author id of a new post and of a new comment, and for the page of the
    comment listing.  The id of the voting user, the author id given to an
    update and the page of the two post listings are taken within 64 bits.

    Strings are Python [str] values whose code points are below 256.
    Timestamps are integers.  The dictionaries returned by [to_dict] are
    records with one field per key. *)

From Stdlib Require Import ZArith String Ascii Bool List Lia.
From Stdlib Require Import Sorting.Sorted Sorting.Permutation.
Import ListNotations.

Local Open Scope Z_scope.

(** ** Python strings *)

Module Py.

Definition code (c : ascii) : N := N_of_ascii c.

(** [str.isspace] on one character, for the code points below 256:
    TAB..CR, FS..US, SPACE, NEL and NO-BREAK SPACE. *)
Definition isspace (c : ascii) : bool :=
  let n := code c in
  ((9 <=? n) && (n <=? 13))%N
  || ((28 <=? n) && (n <=? 32))%N
  || (n =? 133)%N || (n =? 160)%N.

Fixpoint lstrip (s : string) : string :=
  match s with
  | EmptyString => EmptyString
  | String c s' => if isspace c then lstrip s' else s
  end.

Fixpoint rstrip (s : string) : string :=
  match s with
  | EmptyString => EmptyString
  | String c s' =>
      match rstrip s' with
      | EmptyString => if isspace c then EmptyString else String c EmptyString
      | r => String c r
      end
  end.

(** [s.strip()] *)
Definition strip (s : string) : string := rstrip (lstrip s).

(** [c.lower()] for one character: A..Z, and the Latin-1 capitals
    (192..222 except the multiplication sign 215). *)
Definition lower_char (c : ascii) : ascii :=
  let n := code c in
  if ((65 <=? n) && (n <=? 90))%N
     || ((192 <=? n) && (n <=? 222) && negb (n =? 215))%N
  then ascii_of_N (n + 32) else c.

Fixpoint lower (s : string) : string :=
  match s with
  | EmptyString => EmptyString
  | String c s' => String (lower_char c) (lower s')
  end.

(** Truth value of a [str]: false exactly for the empty string. *)
Definition str_truthy (s : string) : bool :=
  match s with EmptyString => false | String _ _ => true end.

(** Truth value of an [Optional[str]] argument: [None] and [""] are falsy. *)
Definition opt_str_truthy (o : option string) : bool :=
  match o with None => false | Some s => str_truthy s end.

(** Truth value of an [Optional[int]] argument: [None] and [0] are falsy. *)
Definition opt_int_truthy (o : option Z) : bool :=
  match o with None => false | Some n => negb (n =? 0) end.

(** [a != b] where [a] is a nullable integer column and [b] an integer. *)
Definition opt_int_ne (a : option Z) (b : Z) : bool :=
  match a with None => true | Some x => negb (x =? b) end.

Fixpoint prefix (p s : string) : bool :=
  match p, s with
  | EmptyString, _ => true
  | String a p', String b s' => Ascii.eqb a b && prefix p' s'
  | String _ _, EmptyString => false
  end.

(** [p in s] for two strings. *)
Fixpoint contains (p s : string) : bool :=
  prefix p s
  || match s with
     | EmptyString => false
     | String _ s' => contains p s'
     end.

End Py.

(** ** Results and failures

    Every service method returns a pair [(value, error)] of which exactly one
    component is [None]: [(x, None)] is [Ok x], [(None, msg)] is [Err].  The
    message of a handler [except Exception as e: return None, str(e)] is
    [Raised e]. *)

(** What [getattr(Post, name)] can evaluate to. *)
Inductive column : Type :=
| Cid | Ctitle | Cbody | Cauthor | Cauthor_id
| Cpublished_at | Cupdated_at | Cis_published.

Inductive class_attr : Type :=
| Column (c : column)            (* InstrumentedAttribute of a mapped column *)
| Relationship (name : string)   (* [votes], [comments], [author_user] *)
| PyProperty (name : string)     (* a plain [property] object *)
| PyFunction (name : string)     (* [to_dict] *)
| PyStr (value : string)         (* [__tablename__] *)
| Inherited (name : string).     (* an attribute the class body does not bind *)

Inductive exn : Type :=
| AttributeError (obj : class_attr) (attr : string)
    (* e.g. 'property' object has no attribute 'desc' *)
| OrderByError (obj : class_attr)
    (* an ORDER BY operand that is no column expression, refused by
       SQLAlchemy or by the database *)
| OverflowError
    (* Python int too large to convert to SQLite INTEGER *)
| ValueError (text : string)
    (* raised by bcrypt for a password it does not take *)
| OtherException (text : string).

Inductive failure : Type :=
| Message (m : string)
| Raised (e : exn).

Inductive result (A : Type) : Type :=
| Ok (a : A)
| Err (f : failure).

Arguments Ok {A} a.
Arguments Err {A} f.

(** ** models.py *)

Module User.
Record t : Type := mk {
  id : Z;
  username : string;
  email : string;
  password_hash : string;
  created_at : Z;
  is_active : bool
}.
End User.

Module Post.
Record t : Type := mk {
  id : Z;
  title : string;
  body : string;
  author : string;
  author_id : option Z;
  published_at : Z;
  updated_at : Z;
  is_published : bool
}.
End Post.

Module Vote.
Record t : Type := mk {
  id : Z;
  user_id : Z;
  post_id : Z;
  vote_type : bool;   (* true = upvote, false = downvote *)
  created_at : Z
}.

Definition set_vote_type (v : t) (b : bool) : t :=
  mk (id v) (user_id v) (post_id v) b (created_at v).
End Vote.

Module Comment.
Record t : Type := mk {
  id : Z;
  content : string;
  author_id : Z;
  post_id : Z;
  created_at : Z;
  updated_at : Z;
  is_active : bool
}.
End Comment.

(** The relational store. *)
Record Store : Type := mkStore {
  users : list User.t;
  posts : list Post.t;
  votes : list Vote.t;
  comments : list Comment.t
}.

Definition empty_store : Store := mkStore [] [] [] [].

Definition set_users (st : Store) (l : list User.t) : Store :=
  mkStore l (posts st) (votes st) (comments st).
Definition set_posts (st : Store) (l : list Post.t) : Store :=
  mkStore (users st) l (votes st) (comments st).
Definition set_votes (st : Store) (l : list Vote.t) : Store :=
  mkStore (users st) (posts st) l (comments st).
Definition set_comments (st : Store) (l : list Comment.t) : Store :=
  mkStore (users st) (posts st) (votes st) l.

(** The integer primary key given to a new row: one more than the largest
    key of the table, 1 for an empty table. *)
Definition fresh_id (ids : list Z) : Z := 1 + fold_right Z.max 0 ids.

(** *** Queries *)

(** An INTEGER of SQLite holds 64 bits, signed. *)
Definition int64 (n : Z) : bool :=
  (-9223372036854775808 <=? n) && (n <=? 9223372036854775807).

(** Binding a Python int to a statement: beyond 64 bits the driver raises
    [OverflowError] before the statement runs.  Every service method
    catches it in its [except Exception] handler, rolls back, and returns
    the text of the exception. *)
Definition bind (n : Z) : option exn :=
  if int64 n then None else Some OverflowError.

Definition bind_opt (o : option Z) : option exn :=
  match o with
  | Some n => bind n
  | None => None
  end.

(** [Post.query.get(post_id)], for a key that was bound: the row with that
    key, if any.  No row has a key beyond 64 bits. *)
Definition Post_get (st : Store) (post_id : Z) : option Post.t :=
  if int64 post_id
  then find (fun p => Post.id p =? post_id) (posts st)
  else None.

(** [User.query.get(user_id)], likewise. *)
Definition User_get (st : Store) (user_id : Z) : option User.t :=
  if int64 user_id
  then find (fun u => User.id u =? user_id) (users st)
  else None.

Definition vote_of (user_id post_id : Z) (v : Vote.t) : bool :=
  (Vote.user_id v =? user_id) && (Vote.post_id v =? post_id).

(** [Vote.query.filter_by(user_id=user_id, post_id=post_id).first()] *)
Definition Vote_first (st : Store) (user_id post_id : Z) : option Vote.t :=
  find (vote_of user_id post_id) (votes st).

(** [Vote.query.filter_by(post_id=self.id, vote_type=b).count()] *)
Definition count_votes (st : Store) (post_id : Z) (b : bool) : Z :=
  Z.of_nat (length (filter (fun v => (Vote.post_id v =? post_id)
                                     && Bool.eqb (Vote.vote_type v) b)
                           (votes st))).

(** [Post.upvotes], [Post.downvotes], [Post.vote_score], [Post.comment_count]
    read on the row with key [post_id]. *)
Definition upvotes (st : Store) (post_id : Z) : Z := count_votes st post_id true.
Definition downvotes (st : Store) (post_id : Z) : Z := count_votes st post_id false.
Definition vote_score (st : Store) (post_id : Z) : Z :=
  upvotes st post_id - downvotes st post_id.
Definition comment_count (st : Store) (post_id : Z) : Z :=
  Z.of_nat (length (filter (fun c => Comment.post_id c =? post_id) (comments st))).

(** The dictionary of [Post.to_dict()], with the key [vote_action] that
    [vote_post] adds. *)
Record PostDict : Type := mkPostDict {
  d_id : Z;
  d_title : string;
  d_body : string;
  d_author : string;
  d_author_id : option Z;
  d_published_at : Z;
  d_updated_at : Z;
  d_is_published : bool;
  d_comment_count : Z;
  d_upvotes : Z;
  d_downvotes : Z;
  d_vote_score : Z;
  d_vote_action : option string
}.

Definition Post_to_dict (st : Store) (p : Post.t) : PostDict :=
  mkPostDict (Post.id p) (Post.title p) (Post.body p) (Post.author p)
             (Post.author_id p) (Post.published_at p) (Post.updated_at p)
             (Post.is_published p)
             (comment_count st (Post.id p))
             (upvotes st (Post.id p)) (downvotes st (Post.id p))
             (vote_score st (Post.id p))
             None.

Definition set_vote_action (d : PostDict) (a : string) : PostDict :=
  mkPostDict (d_id d) (d_title d) (d_body d) (d_author d) (d_author_id d)
             (d_published_at d) (d_updated_at d) (d_is_published d)
             (d_comment_count d) (d_upvotes d) (d_downvotes d)
             (d_vote_score d) (Some a).

(** *** Writes, as the unit of work flushes them *)

(** The database error behind an [IntegrityError], with SQLite's text. *)
Inductive IntegrityError : Type :=
| UniqueFailed (columns : string).

Definition orig (e : IntegrityError) : string :=
  match e with
  | UniqueFailed cols => String.append "UNIQUE constraint failed: " cols
  end.

(** [INSERT INTO votes]: refused by [unique_user_post_vote] when the pair
    already has a row. *)
Definition insert_vote (st : Store) (user_id post_id : Z) (vote_type : bool)
           (now : Z) : Store + IntegrityError :=
  if existsb (vote_of user_id post_id) (votes st)
  then inr (UniqueFailed "votes.user_id, votes.post_id")
  else inl (set_votes st
              (votes st ++ [Vote.mk (fresh_id (map Vote.id (votes st)))
                                    user_id post_id vote_type now])).

(** [DELETE FROM votes WHERE id = ?] *)
Definition delete_vote (st : Store) (v : Vote.t) : Store :=
  set_votes st (filter (fun w => negb (Vote.id w =? Vote.id v)) (votes st)).

(** [UPDATE votes SET vote_type = ? WHERE id = ?] *)
Definition update_vote_type (st : Store) (v : Vote.t) (b : bool) : Store :=
  set_votes st
    (map (fun w => if Vote.id w =? Vote.id v then Vote.set_vote_type w b else w)
         (votes st)).

(** ** services.py: VoteService *)

Module VoteService.

(** [post_id] comes from the URL and is bound by the lookup of the post.
    [user_id] is the key of the [users] row the handler resolved the token
    to, an integer the database holds. *)
Definition vote_post (st : Store) (now : Z) (user_id post_id : Z)
           (vote_type : bool) : Store * result PostDict :=
  match bind post_id with
  | Some e => (st, Err (Raised e))
  | None =>
      match Post_get st post_id with
      | None => (st, Err (Message "Post not found"))
      | Some post =>
          let flushed : (Store * string) + IntegrityError :=
            match Vote_first st user_id post_id with
            | Some existing_vote =>
                if Bool.eqb (Vote.vote_type existing_vote) vote_type
                then inl (delete_vote st existing_vote, "removed"%string)
                else inl (update_vote_type st existing_vote vote_type,
                          "updated"%string)
            | None =>
                match insert_vote st user_id post_id vote_type now with
                | inl st' => inl (st', "added"%string)
                | inr e => inr e
                end
            end in
          match flushed with
          | inl (st', action) =>
              (st', Ok (set_vote_action (Post_to_dict st' post) action))
          | inr _ =>
              (st, Err (Message "Voting conflict occurred, please try again"))
          end
      end
  end.

(** The query binds both ids. *)
Definition get_user_vote_on_post (st : Store) (user_id post_id : Z)
  : result (option Vote.t) :=
  match bind user_id, bind post_id with
  | None, None => Ok (Vote_first st user_id post_id)
  | Some e, _ => Err (Raised e)
  | None, Some e => Err (Raised e)
  end.

End VoteService.

(** ** What the sources import

    [flask_bcrypt] and the base class [db.Model] (module [db], an instance of
    Flask-SQLAlchemy) are not part of the sources.  The services are written
    against this interface. *)

(** The relation a boolean comparison decides. *)
Definition rel_of {A : Type} (le : A -> A -> bool) (a b : A) : Prop :=
  le a b = true.

Class Externals : Type := {
  (** [flask_bcrypt.generate_password_hash(password)], the random salt made
      explicit: the hash, or the exception bcrypt raises *)
  bcrypt_generate : string -> string -> exn + string;
  (** [flask_bcrypt.check_password_hash(pw_hash, password)]: whether the
      password matches, or the exception bcrypt raises *)
  bcrypt_check : string -> string -> exn + bool;
  (** which unique index of [users] the database reports when an INSERT
      violates both: [true] for the one on [email] *)
  email_index_first : bool;
  (** [ORDER BY]: the rows in the order the database returns them for a
      comparison.  SQL fixes that order up to the rows that compare equal,
      whose order is the database's choice. *)
  db_order_by : forall A : Type, (A -> A -> bool) -> list A -> list A;
  db_order_by_perm :
    forall (A : Type) (le : A -> A -> bool) (l : list A),
      Permutation (db_order_by A le l) l;
  db_order_by_sorted :
    forall (A : Type) (le : A -> A -> bool) (l : list A),
      (forall a b, le a b = true \/ le b a = true) ->
      Sorted (rel_of le) (db_order_by A le l);
  (** whether a model class has an attribute of this name that its body
      in [models.py] does not bind: those of [db.Model] ([query],
      [metadata], ...) and of every Python class *)
  Model_hasattr : string -> bool;
  (** what SQLAlchemy does with a relationship attribute or an attribute of
      [db.Model] as the sort key of [posts], descending ([true], through
      its [desc()]) or ascending: it raises, or orders the rows *)
  foreign_order : string -> bool -> exn + (Post.t -> Post.t -> bool)
}.

Arguments db_order_by {Externals A} le l.

(** The hash [generate_password_hash] returns, when it returns. *)
Definition generate_password_hash {E : Externals} (salt password : string)
  : string :=
  match bcrypt_generate salt password with
  | inr h => h
  | inl _ => EmptyString
  end.

(** Whether [check_password_hash] returns [True]. *)
Definition check_password_hash {E : Externals} (pw_hash password : string)
  : bool :=
  match bcrypt_check pw_hash password with
  | inr b => b
  | inl _ => false
  end.

(** ** Sorting and pagination *)

Section OrderBy.
Context {A : Type}.
Variable le : A -> A -> bool.

Fixpoint insert_row (x : A) (l : list A) : list A :=
  match l with
  | [] => [x]
  | y :: l' => if le x y then x :: l else y :: insert_row x l'
  end.

(** A stable insertion sort: one order a database may return, the one in
    which rows that compare equal keep their table order. *)
Fixpoint order_by (l : list A) : list A :=
  match l with
  | [] => []
  | x :: l' => insert_row x (order_by l')
  end.
End OrderBy.

(** The object returned by [Query.paginate]. *)
Record Pagination (A : Type) : Type := mkPagination {
  items : list A;
  page : Z;
  per_page : Z;
  total : Z
}.

Arguments mkPagination {A} _ _ _ _.
Arguments items {A} _.
Arguments page {A} _.
Arguments per_page {A} _.
Arguments total {A} _.

(** [query.paginate(page=page, per_page=per_page, error_out=False)]: with
    [error_out=False] a page below 1 becomes 1 and a page size below 1
    becomes 20; the items are rows [(page-1)*per_page ..] of the query, at
    most [per_page] of them. *)
Definition paginate {A : Type} (rows : list A) (page per_page : Z)
  : Pagination A :=
  let page := if page <? 1 then 1 else page in
  let per_page := if per_page <? 1 then 20 else per_page in
  mkPagination
    (firstn (Z.to_nat per_page) (skipn (Z.to_nat ((page - 1) * per_page)) rows))
    page per_page (Z.of_nat (length rows)).

Definition pages {A : Type} (p : Pagination A) : Z :=
  (total p + per_page p - 1) / per_page p.
Definition has_next {A : Type} (p : Pagination A) : bool := page p <? pages p.
Definition has_prev {A : Type} (p : Pagination A) : bool := 1 <? page p.

(** Comparison of two rows of [posts] on one column; NULL sorts first. *)
Definition col_compare (c : column) (p q : Post.t) : comparison :=
  match c with
  | Cid => Post.id p ?= Post.id q
  | Ctitle => String.compare (Post.title p) (Post.title q)
  | Cbody => String.compare (Post.body p) (Post.body q)
  | Cauthor => String.compare (Post.author p) (Post.author q)
  | Cauthor_id =>
      match Post.author_id p, Post.author_id q with
      | None, None => Eq
      | None, Some _ => Lt
      | Some _, None => Gt
      | Some a, Some b => a ?= b
      end
  | Cpublished_at => Post.published_at p ?= Post.published_at q
  | Cupdated_at => Post.updated_at p ?= Post.updated_at q
  | Cis_published => Bool.compare (Post.is_published p) (Post.is_published q)
  end.

(** [column] ascending, and [column.desc()]. *)
Definition asc_le (c : column) (p q : Post.t) : bool :=
  match col_compare c p q with Gt => false | _ => true end.
Definition desc_le (c : column) (p q : Post.t) : bool :=
  match col_compare c p q with Lt => false | _ => true end.

(** ** SQL pattern matching *)

(** The text SQLite's LIKE reads from an operand: a C string, which
    ends at the first NUL. *)
Fixpoint c_str (s : string) : string :=
  match s with
  | EmptyString => EmptyString
  | String c s' => if Ascii.eqb c "000" then EmptyString
                   else String c (c_str s')
  end.

(** Matching a pattern against a text: [%] matches any run of
    characters, [_] any one character, any other character itself. *)
Fixpoint like_match (pat : string) : string -> bool :=
  match pat with
  | EmptyString => fun s => negb (Py.str_truthy s)
  | String c pat' =>
      if Ascii.eqb c "%"
      then (fix star (s : string) : bool :=
              like_match pat' s
              || match s with
                 | EmptyString => false
                 | String _ s' => star s'
                 end)
      else fun s =>
             match s with
             | EmptyString => false
             | String d s' => (Ascii.eqb c "_" || Ascii.eqb c d) && like_match pat' s'
             end
  end.

(** [s LIKE pat] *)
Definition like (pat s : string) : bool := like_match (c_str pat) (c_str s).

(** SQL [lower()], which folds A..Z only. *)
Fixpoint sql_lower (s : string) : string :=
  match s with
  | EmptyString => EmptyString
  | String c s' =>
      String (if (65 <=? Py.code c)%N && (Py.code c <=? 90)%N
              then ascii_of_N (Py.code c + 32) else c)
             (sql_lower s')
  end.

(** [column.ilike(pat)], rendered [lower(column) LIKE lower(pat)]. *)
Definition ilike (s pat : string) : bool := like (sql_lower pat) (sql_lower s).

(** ** services.py: PostService *)

Module PostService.
Section WithExternals.
Context {E : Externals}.

(** The names bound in the body of [class Post], and [author_user], the
    backref that [User.posts] adds to it. *)
Definition Post_namespace (name : string) : option class_attr :=
  if (name =? "__tablename__")%string then Some (PyStr "posts")
  else if (name =? "id")%string then Some (Column Cid)
  else if (name =? "title")%string then Some (Column Ctitle)
  else if (name =? "body")%string then Some (Column Cbody)
  else if (name =? "author")%string then Some (Column Cauthor)
  else if (name =? "author_id")%string then Some (Column Cauthor_id)
  else if (name =? "published_at")%string then Some (Column Cpublished_at)
  else if (name =? "updated_at")%string then Some (Column Cupdated_at)
  else if (name =? "is_published")%string then Some (Column Cis_published)
  else if (name =? "votes")%string then Some (Relationship name)
  else if (name =? "comments")%string then Some (Relationship name)
  else if (name =? "author_user")%string then Some (Relationship name)
  else if (name =? "upvotes")%string then Some (PyProperty name)
  else if (name =? "downvotes")%string then Some (PyProperty name)
  else if (name =? "vote_score")%string then Some (PyProperty name)
  else if (name =? "comment_count")%string then Some (PyProperty name)
  else if (name =? "to_dict")%string then Some (PyFunction name)
  else None.

(** [getattr(Post, name, default)] *)
Definition getattr_Post (name : string) (default : class_attr) : class_attr :=
  match Post_namespace name with
  | Some a => a
  | None => if Model_hasattr name then Inherited name else default
  end.

(** The INSERT binds the author id when there is one. *)
Definition create_post (st : Store) (now : Z) (title body author : string)
           (author_id : option Z) : Store * result Post.t :=
  match bind_opt author_id with
  | Some e => (st, Err (Raised e))
  | None =>
      let post := Post.mk (fresh_id (map Post.id (posts st)))
                          (Py.strip title) (Py.strip body) (Py.strip author)
                          author_id now now true in
      (set_posts st (posts st ++ [post]), Ok post)
  end.

Definition get_post_by_id (st : Store) (post_id : Z) : result Post.t :=
  match bind post_id with
  | Some e => Err (Raised e)
  | None =>
      match Post_get st post_id with
      | None => Err (Message "Post not found")
      | Some post => Ok post
      end
  end.

(** A mapped column has [desc()] and is an ORDER BY operand.  A property,
    a function and a string have no [desc()] and are no ORDER BY operand:
    the call raises, and the handler turns the exception into the error of
    the result.  The page and the page size are those of a listing the
    database can address: LIMIT and OFFSET within 64 bits. *)
Definition get_all_posts (st : Store) (page per_page : Z)
           (sort_by order : string) : result (Pagination Post.t) :=
  let sort_column := getattr_Post sort_by (Column Cpublished_at) in
  let published := filter Post.is_published (posts st) in
  let desc := (Py.lower order =? "desc")%string in
  match sort_column with
  | Column c =>
      Ok (paginate
            (db_order_by (if desc then desc_le c else asc_le c) published)
            page per_page)
  | Relationship name | Inherited name =>
      match foreign_order name desc with
      | inl e => Err (Raised e)
      | inr le => Ok (paginate (db_order_by le published) page per_page)
      end
  | other =>
      if desc then Err (Raised (AttributeError other "desc"))
      else Err (Raised (OrderByError other))
  end.

Definition search_posts (st : Store) (query : option string)
           (page per_page : Z) : result (Pagination Post.t) :=
  match query with
  | None => get_all_posts st page per_page "published_at" "desc"
  | Some q =>
      if negb (Py.str_truthy q) || negb (Py.str_truthy (Py.strip q))
      then get_all_posts st page per_page "published_at" "desc"
      else
        let search_term := ("%" ++ Py.strip q ++ "%")%string in
        Ok (paginate
              (db_order_by (desc_le Cpublished_at)
                 (filter (fun p => Post.is_published p
                                   && (ilike (Post.title p) search_term
                                       || ilike (Post.body p) search_term))
                         (posts st)))
              page per_page)
  end.

(** [post_id] comes from the URL and is bound by the lookup of the post.
    [author_id] is the key of the [users] row the handler resolved the
    token to, an integer the database holds. *)
Definition update_post (st : Store) (now : Z) (post_id : Z)
           (title body : option string) (author_id : option Z)
  : Store * result Post.t :=
  match bind post_id with
  | Some e => (st, Err (Raised e))
  | None =>
      match Post_get st post_id with
      | None => (st, Err (Message "Post not found"))
      | Some post =>
          let title' := match title with
                        | Some t => if Py.str_truthy t then Py.strip t
                                    else Post.title post
                        | None => Post.title post
                        end in
          let body' := match body with
                       | Some b => if Py.str_truthy b then Py.strip b
                                   else Post.body post
                       | None => Post.body post
                       end in
          let author_id' := if Py.opt_int_truthy author_id then author_id
                            else Post.author_id post in
          let post' := Post.mk (Post.id post) title' body' (Post.author post)
                               author_id' (Post.published_at post) now
                               (Post.is_published post) in
          (set_posts st
             (map (fun p => if Post.id p =? Post.id post then post' else p)
                  (posts st)),
           Ok post')
      end
  end.

(** [db.session.delete(post)] deletes the row and, by the cascade of the
    relationships [Post.votes] and [Post.comments], the rows that refer
    to it. *)
Definition delete_cascade (st : Store) (post : Post.t) : Store :=
  mkStore (users st)
          (filter (fun p => negb (Post.id p =? Post.id post)) (posts st))
          (filter (fun v => negb (Vote.post_id v =? Post.id post)) (votes st))
          (filter (fun c => negb (Comment.post_id c =? Post.id post))
                  (comments st)).

(** [(True, None)] is [Ok tt], [(False, msg)] is [Err (Message msg)]. *)
Definition delete_post (st : Store) (post_id : Z) (author_id : option Z)
  : Store * result unit :=
  match bind post_id with
  | Some e => (st, Err (Raised e))
  | None =>
      match Post_get st post_id with
      | None => (st, Err (Message "Post not found"))
      | Some post =>
          if Py.opt_int_truthy author_id
             && match author_id with
                | Some a => Py.opt_int_ne (Post.author_id post) a
                | None => false
                end
          then (st, Err (Message "Unauthorized to delete this post"))
          else (delete_cascade st post, Ok tt)
      end
  end.

End WithExternals.
End PostService.

(** ** services.py: UserService *)

Module UserService.
Section WithExternals.
Context {E : Externals}.

(** [INSERT INTO users]: refused by the unique index on [username] or by
    the one on [email]; when the row violates both, the database reports
    the index it checks first. *)
Definition insert_user (st : Store) (u : User.t) : Store + IntegrityError :=
  let name_taken :=
    existsb (fun w => (User.username w =? User.username u)%string) (users st) in
  let mail_taken :=
    existsb (fun w => (User.email w =? User.email u)%string) (users st) in
  if name_taken && mail_taken
  then inr (UniqueFailed (if email_index_first then "users.email"
                          else "users.username"))
  else if name_taken then inr (UniqueFailed "users.username")
  else if mail_taken then inr (UniqueFailed "users.email")
  else inl (set_users st (users st ++ [u])).

(** [set_password] hashes before anything is added to the session: when
    bcrypt raises, nothing is inserted. *)
Definition create_user (st : Store) (now : Z) (salt : string)
           (username email password : string) : Store * result User.t :=
  match bcrypt_generate salt password with
  | inl e => (st, Err (Raised e))
  | inr password_hash =>
      let user := User.mk (fresh_id (map User.id (users st)))
                          (Py.strip username) (Py.strip email)
                          password_hash now true in
      match insert_user st user with
      | inl st' => (st', Ok user)
      | inr e =>
          if Py.contains "username" (orig e)
          then (st, Err (Message "Username already exists"))
          else if Py.contains "email" (orig e)
          then (st, Err (Message "Email already exists"))
          else (st, Err (Message "User already exists"))
      end
  end.

(** [User.query.filter_by(username=username).first()] *)
Definition User_by_username (st : Store) (username : string) : option User.t :=
  find (fun u => (User.username u =? username)%string) (users st).

(** [User.check_password] *)
Definition check_password (u : User.t) (password : string) : exn + bool :=
  bcrypt_check (User.password_hash u) password.

(** [user and user.check_password(password) and user.is_active]: the
    password is checked only for a user that was found, and an exception
    of the check goes to the [except Exception] handler. *)
Definition authenticate_user (st : Store) (username password : string)
  : result User.t :=
  match User_by_username st username with
  | Some user =>
      match check_password user password with
      | inl e => Err (Raised e)
      | inr matches =>
          if matches && User.is_active user
          then Ok user
          else Err (Message "Invalid credentials")
      end
  | None => Err (Message "Invalid credentials")
  end.

Definition get_user_by_id (st : Store) (user_id : Z) : result User.t :=
  match bind user_id with
  | Some e => Err (Raised e)
  | None =>
      match User_get st user_id with
      | None => Err (Message "User not found")
      | Some user => Ok user
      end
  end.

End WithExternals.
End UserService.

(** ** services.py: CommentService *)

Module CommentService.
Section WithExternals.
Context {E : Externals}.

(** The lookup binds the post id, the INSERT the author id. *)
Definition create_comment (st : Store) (now : Z) (content : string)
           (author_id post_id : Z) : Store * result Comment.t :=
  match bind post_id with
  | Some e => (st, Err (Raised e))
  | None =>
      match Post_get st post_id with
      | None => (st, Err (Message "Post not found"))
      | Some _ =>
          match bind author_id with
          | Some e => (st, Err (Raised e))
          | None =>
              let comment :=
                Comment.mk (fresh_id (map Comment.id (comments st)))
                           (Py.strip content) author_id post_id
                           now now true in
              (set_comments st (comments st ++ [comment]), Ok comment)
          end
      end
  end.

(** The query binds the post id, the page size (LIMIT) and the offset of
    the page (OFFSET), the last two as [paginate] settles them. *)
Definition get_post_comments (st : Store) (post_id page per_page : Z)
  : result (Pagination Comment.t) :=
  let limit := if per_page <? 1 then 20 else per_page in
  let offset := ((if page <? 1 then 1 else page) - 1) * limit in
  if int64 post_id && int64 limit && int64 offset
  then
    Ok (paginate
          (db_order_by
             (fun a b => Comment.created_at b <=? Comment.created_at a)
             (filter (fun c => (Comment.post_id c =? post_id)
                               && Comment.is_active c)
                     (comments st)))
          page per_page)
  else Err (Raised OverflowError).

End WithExternals.
End CommentService.

(** ** schemas.py

    A request body is a JSON object whose fields are strings; a field is
    absent, [null] or a string.  [load] is [validate_json_data]: [None]
    when marshmallow reports errors. *)

Module Schemas.

Inductive jfield : Type :=
| Absent
| Null
| Str (s : string).

(** [validate.Length(min=min, max=max)] *)
Definition Length (min : nat) (max : option nat) (s : string) : bool :=
  (min <=? String.length s)%nat
  && match max with
     | Some m => (String.length s <=? m)%nat
     | None => true
     end.

(** A required string field: absent and [null] are errors. *)
Definition required (ok : string -> bool) (f : jfield) : option string :=
  match f with
  | Str s => if ok s then Some s else None
  | Absent | Null => None
  end.

(** A string field with [load_default=None]: absent and [null] load as
    [None] and skip the validators.  The outer option is the outcome of
    the validation, the inner one the loaded value. *)
Definition optional (ok : string -> bool) (f : jfield)
  : option (option string) :=
  match f with
  | Str s => if ok s then Some (Some s) else None
  | Absent | Null => Some None
  end.

Definition PostCreateSchema (title body author : jfield)
  : option (string * string * string) :=
  match required (Length 1 (Some 200%nat)) title,
        required (Length 10 None) body,
        required (Length 1 (Some 100%nat)) author with
  | Some t, Some b, Some a => Some (t, b, a)
  | _, _, _ => None
  end.

Definition PostUpdateSchema (title body : jfield)
  : option (option string * option string) :=
  match optional (Length 1 (Some 200%nat)) title,
        optional (Length 10 None) body with
  | Some t, Some b => Some (t, b)
  | _, _ => None
  end.

Definition VoteSchema (vote_type : jfield) : option string :=
  required (fun s => (s =? "upvote")%string || (s =? "downvote")%string)
           vote_type.

Definition CommentCreateSchema (content : jfield) : option string :=
  required (Length 1 (Some 1000%nat)) content.

(** [not data] for a body with these fields: the empty object. *)
Definition is_absent (f : jfield) : bool :=
  match f with Absent => true | _ => false end.

End Schemas.

(** ** routes.py and auth.py: the handlers *)

Module Routes.

Definition failure_is (f : failure) (m : string) : bool :=
  match f with
  | Message m' => (m' =? m)%string
  | Raised _ => false
  end.

(** The handler under [jwt_required_custom]: [identity] is the user id the
    verified token carries, [None] when verification fails.  The result is
    the HTTP status. *)
Definition delete_post (st : Store) (identity : option Z) (post_id : Z)
  : Store * Z :=
  match identity with
  | None => (st, 401)
  | Some current_user_id =>
      match User_get st current_user_id with
      | None => (st, 401)
      | Some current_user =>
          if negb (User.is_active current_user) then (st, 401)
          else
            match PostService.delete_post st post_id
                    (Some (User.id current_user)) with
            | (st', Ok _) => (st', 200)
            | (st', Err error) =>
                if failure_is error "Post not found" then (st', 404)
                else (st', 403)
            end
      end
  end.

(** [jwt_required_custom]: the wrapped handler runs for the user the
    verified token names when that user exists and is active; otherwise the
    answer is [reject] (401). *)
Definition jwt_required_custom {A : Type} (st : Store) (identity : option Z)
           (reject : A) (f : User.t -> A) : A :=
  match identity with
  | None => reject
  | Some current_user_id =>
      match User_get st current_user_id with
      | None => reject
      | Some user => if negb (User.is_active user) then reject else f user
      end
  end.

(** POST /api/posts *)
Definition create_post (st : Store) (now : Z) (identity : option Z)
           (title body author : Schemas.jfield) : Store * Z :=
  jwt_required_custom st identity (st, 401)
    (fun current_user =>
       if Schemas.is_absent title && Schemas.is_absent body
          && Schemas.is_absent author
       then (st, 400)
       else
         match Schemas.PostCreateSchema title body author with
         | None => (st, 400)
         | Some (t, b, a) =>
             match PostService.create_post st now t b a
                     (Some (User.id current_user)) with
             | (st', Ok _) => (st', 201)
             | (st', Err _) => (st', 400)
             end
         end).

(** PUT /api/posts/<post_id> *)
Definition update_post (st : Store) (now : Z) (identity : option Z)
           (post_id : Z) (title body : Schemas.jfield) : Store * Z :=
  jwt_required_custom st identity (st, 401)
    (fun current_user =>
       if Schemas.is_absent title && Schemas.is_absent body
       then (st, 400)
       else
         match Schemas.PostUpdateSchema title body with
         | None => (st, 400)
         | Some (t, b) =>
             match PostService.get_post_by_id st post_id with
             | Err _ => (st, 404)
             | Ok post =>
                 if Py.opt_int_ne (Post.author_id post) (User.id current_user)
                 then (st, 403)
                 else
                   match PostService.update_post st now post_id t b
                           (Some (User.id current_user)) with
                   | (st', Ok _) => (st', 200)
                   | (st', Err _) => (st', 400)
                   end
             end
         end).

(** POST /api/posts/<post_id>/vote *)
Definition vote_on_post (st : Store) (now : Z) (identity : option Z)
           (post_id : Z) (vote_type : Schemas.jfield) : Store * Z :=
  jwt_required_custom st identity (st, 401)
    (fun current_user =>
       if Schemas.is_absent vote_type then (st, 400)
       else
         match Schemas.VoteSchema vote_type with
         | None => (st, 400)
         | Some v =>
             match VoteService.vote_post st now (User.id current_user) post_id
                     (v =? "upvote")%string with
             | (st', Ok _) => (st', 200)
             | (st', Err error) =>
                 if failure_is error "Post not found" then (st', 404)
                 else (st', 400)
             end
         end).

(** The [data] of the vote-status answer. *)
Record VoteStatus : Type := mkVoteStatus {
  has_voted : bool;
  vote : option (string * Z)   (* vote_type, created_at *)
}.

(** GET /api/posts/<post_id>/vote-status *)
Definition get_vote_status (st : Store) (identity : option Z) (post_id : Z)
  : Z * option VoteStatus :=
  jwt_required_custom st identity (401, None)
    (fun current_user =>
       match VoteService.get_user_vote_on_post st (User.id current_user)
               post_id with
       | Err _ => (500, None)
       | Ok None => (200, Some (mkVoteStatus false None))
       | Ok (Some v) =>
           (200, Some (mkVoteStatus true
                         (Some (if Vote.vote_type v
                                then "upvote"%string else "downvote"%string,
                                Vote.created_at v))))
       end).

(** POST /api/posts/<post_id>/comments *)
Definition create_comment (st : Store) (now : Z) (identity : option Z)
           (post_id : Z) (content : Schemas.jfield) : Store * Z :=
  jwt_required_custom st identity (st, 401)
    (fun current_user =>
       if Schemas.is_absent content then (st, 400)
       else
         match Schemas.CommentCreateSchema content with
         | None => (st, 400)
         | Some c =>
             match CommentService.create_comment st now c
                     (User.id current_user) post_id with
             | (st', Ok _) => (st', 201)
             | (st', Err error) =>
                 if failure_is error "Post not found" then (st', 404)
                 else (st', 400)
             end
         end).

End Routes.

(** ** The system as a transition system

    The requests that write to the store.  Reads leave it as it is. *)

Inductive request : Type :=
| CreateUser (now : Z) (salt username email password : string)
| CreatePost (now : Z) (title body author : string) (author_id : option Z)
| UpdatePost (now post_id : Z) (title body : option string)
             (author_id : option Z)
| DeletePost (post_id : Z) (author_id : option Z)
| VotePost (now user_id post_id : Z) (vote_type : bool)
| CreateComment (now : Z) (content : string) (author_id post_id : Z).

Definition serve {E : Externals} (st : Store) (r : request) : Store :=
  match r with
  | CreateUser now salt username email password =>
      fst (UserService.create_user st now salt username email password)
  | CreatePost now title body author author_id =>
      fst (PostService.create_post st now title body author author_id)
  | UpdatePost now post_id title body author_id =>
      fst (PostService.update_post st now post_id title body author_id)
  | DeletePost post_id author_id =>
      fst (PostService.delete_post st post_id author_id)
  | VotePost now user_id post_id vote_type =>
      fst (VoteService.vote_post st now user_id post_id vote_type)
  | CreateComment now content author_id post_id =>
      fst (CommentService.create_comment st now content author_id post_id)
  end.

(** The stores the system reaches from the empty database. *)
Inductive reachable {E : Externals} : Store -> Prop :=
| reachable_empty : reachable empty_store
| reachable_serve st r : reachable st -> reachable (serve st r).

(** ** Vote states and the uniqueness constraint *)

(** The three states of a (user, post) pair. *)
Inductive vote_state : Type := NoVote | Upvoted | Downvoted.

Definition state_of_type (vote_type : bool) : vote_state :=
  if vote_type then Upvoted else Downvoted.

Definition vote_state_of (st : Store) (user_id post_id : Z) : vote_state :=
  match Vote_first st user_id post_id with
  | None => NoVote
  | Some v => state_of_type (Vote.vote_type v)
  end.

(** The transition table of the vote toggle, as a function of the state
    of the pair and the requested type. *)
Definition transition (s : vote_state) (wants_upvote : bool)
  : vote_state * string :=
  match s, wants_upvote with
  | NoVote, true => (Upvoted, "added"%string)
  | NoVote, false => (Downvoted, "added"%string)
  | Upvoted, true => (NoVote, "removed"%string)
  | Upvoted, false => (Downvoted, "updated"%string)
  | Downvoted, false => (NoVote, "removed"%string)
  | Downvoted, true => (Upvoted, "updated"%string)
  end.

Definition vote_key (v : Vote.t) : Z * Z := (Vote.user_id v, Vote.post_id v).

(** At most one row of [votes] per (user_id, post_id): the constraint
    [unique_user_post_vote]. *)
Definition votes_unique (st : Store) : Prop :=
  NoDup (map vote_key (votes st)).

(** The primary key of [votes] *)
Definition vote_ids_unique (st : Store) : Prop := NoDup (map Vote.id (votes st)).

(** Two calls of [vote_post] in succession. *)
Definition vote_then_vote (st : Store) (now1 now2 u p : Z) (b1 b2 : bool)
  : Store :=
  fst (VoteService.vote_post
         (fst (VoteService.vote_post st now1 u p b1)) now2 u p b2).

(** A query that is absent, empty or only whitespace. *)
Definition is_blank (query : option string) : bool :=
  match query with
  | None => true
  | Some q => negb (Py.str_truthy (Py.strip q))
  end.

(** The listing with its default sort, in the words of the specification:
    the published posts, newest first, one page of them. *)
Definition list_default {E : Externals} (st : Store) (page per_page : Z)
  : Pagination Post.t :=
  paginate (db_order_by (desc_le Cpublished_at)
                        (filter Post.is_published (posts st)))
           page per_page.

(** ** Sample stores *)

Definition ann : User.t :=
  User.mk 1 "ann" "ann@example.com" "salt$secret" 90 true.


Definition first_post : Post.t :=
  Post.mk 1 "Hello" "A first post with a body." "Ann" (Some 1) 100 100 true.

Definition one_post : Store := mkStore [ann] [first_post] [] [].

Definition one_post_upvoted : Store :=
  mkStore [ann] [first_post] [Vote.mk 1 1 1 true 110] [].

Definition draft_post : Post.t :=
  Post.mk 2 "Draft" "Not yet ready to be read." "Ann" (Some 1) 105 105 false.

Definition with_draft : Store := mkStore [ann] [first_post; draft_post] [] [].

Definition orphan_post : Post.t :=
  Post.mk 3 "Orphan" "A post without an author id." "Nobody" None 107 107 true.

Definition with_orphan : Store := mkStore [ann] [first_post; orphan_post] [] [].

(** A sequence of requests served in order. *)
Definition serve_all {E : Externals} (st : Store) (rs : list request) : Store :=
  fold_left serve rs st.

(** A short session: a registration, a post, a vote and a comment. *)
Definition session : list request :=
  [ CreateUser 90 "salt" "ann" "ann@example.com" "secret";
    CreatePost 100 "Hello" "A first post with a body." "Ann" (Some 1);
    VotePost 110 1 1 true;
    CreateComment 120 "Nice." 1 1 ].

(** ** Integrity of the store *)

(** The primary keys of the four tables. *)
Definition keys_unique (st : Store) : Prop :=
  NoDup (map User.id (users st))
  /\ NoDup (map Post.id (posts st))
  /\ NoDup (map Vote.id (votes st))
  /\ NoDup (map Comment.id (comments st)).

(** The unique indexes of [users]. *)
Definition users_unique (st : Store) : Prop :=
  NoDup (map User.username (users st))
  /\ NoDup (map User.email (users st)).

(** Every vote and every comment refers to a row of [posts]. *)
Definition no_orphans (st : Store) : Prop :=
  (forall v, In v (votes st) -> In (Vote.post_id v) (map Post.id (posts st)))
  /\ (forall c, In c (comments st) ->
                In (Comment.post_id c) (map Post.id (posts st))).

(** The post id of every vote and of every comment is one the database
    can hold. *)
Definition refs_bound (st : Store) : Prop :=
  (forall v, In v (votes st) -> int64 (Vote.post_id v) = true)
  /\ (forall c, In c (comments st) -> int64 (Comment.post_id c) = true).

(** By how much one vote request changes the counts (upvotes, downvotes)
    of the post, from the state of the pair and the requested type. *)
Definition count_delta (s : vote_state) (wants_upvote : bool) : Z * Z :=
  match s, wants_upvote with
  | NoVote, true => (1, 0)
  | NoVote, false => (0, 1)
  | Upvoted, true => (-1, 0)
  | Upvoted, false => (-1, 1)
  | Downvoted, false => (0, -1)
  | Downvoted, true => (1, -1)
  end.

(** The rows behind [get_post_comments] before pagination. *)
Definition active_comments (st : Store) (post_id : Z) : list Comment.t :=
  filter (fun c => (Comment.post_id c =? post_id) && Comment.is_active c)
         (comments st).

(** No SQL wildcard in a search term. *)
Fixpoint no_wildcard (s : string) : bool :=
  match s with
  | EmptyString => true
  | String c s' =>
      negb (Ascii.eqb c "%") && negb (Ascii.eqb c "_") && no_wildcard s'
  end.

(** No NUL in a search term. *)
Fixpoint no_nul (s : string) : bool :=
  match s with
  | EmptyString => true
  | String c s' => negb (Ascii.eqb c "000") && no_nul s'
  end.

(** A published post whose title or body, read up to its first NUL,
    contains the text, letters A..Z compared without case. *)
Definition text_hit (text : string) (p : Post.t) : bool :=
  Post.is_published p
  && (Py.contains (sql_lower text) (c_str (sql_lower (Post.title p)))
      || Py.contains (sql_lower text) (c_str (sql_lower (Post.body p)))).

(** ** An instance of the interface

    The insertion sort satisfies the two laws of [db_order_by]. *)

Section OrderByFacts.
Context {A : Type}.
Variable le : A -> A -> bool.
Hypothesis le_total : forall a b, le a b = true \/ le b a = true.

Lemma insert_row_In (x a : A) (l : list A) :
  In x (insert_row le a l) <-> x = a \/ In x l.
Proof.
  induction l as [|y l IH]; simpl.
  - intuition congruence.
  - destruct (le a y); simpl; [intuition congruence|].
    rewrite IH. intuition congruence.
Qed.

Lemma order_by_In (x : A) (l : list A) : In x (order_by le l) <-> In x l.
Proof.
  induction l as [|a l IH]; simpl; [tauto|].
  rewrite insert_row_In, IH. intuition congruence.
Qed.

Lemma insert_row_HdRel (x a : A) (l : list A) :
  rel_of le x a -> HdRel (rel_of le) x l ->
  HdRel (rel_of le) x (insert_row le a l).
Proof.
  intros Hxa Hl. destruct l as [|y l]; simpl; [now constructor|].
  destruct (le a y); constructor; [exact Hxa|].
  now inversion Hl.
Qed.

Lemma insert_row_Sorted (a : A) (l : list A) :
  Sorted (rel_of le) l -> Sorted (rel_of le) (insert_row le a l).
Proof.
  induction 1 as [|y l Hl IH Hy]; simpl.
  - repeat constructor.
  - destruct (le a y) eqn:Hay.
    + constructor; [now constructor | now constructor].
    + constructor; [exact IH|].
      apply insert_row_HdRel; [|exact Hy].
      destruct (le_total a y) as [H | H]; [congruence | exact H].
Qed.

Lemma order_by_Sorted (l : list A) : Sorted (rel_of le) (order_by le l).
Proof.
  induction l as [|a l IH]; simpl; [constructor|].
  now apply insert_row_Sorted.
Qed.

End OrderByFacts.

Lemma insert_row_perm {A : Type} (le : A -> A -> bool) (x : A) (l : list A) :
  Permutation (insert_row le x l) (x :: l).
Proof.
  induction l as [|a l IH]; simpl; [reflexivity|].
  destruct (le x a); [reflexivity|].
  rewrite IH. apply perm_swap.
Qed.

Lemma order_by_perm {A : Type} (le : A -> A -> bool) (l : list A) :
  Permutation (order_by le l) l.
Proof.
  induction l as [|a l IH]; simpl; [reflexivity|].
  rewrite insert_row_perm. now apply perm_skip.
Qed.

(** What the two laws of [db_order_by] give about the rows returned. *)
Lemma db_order_by_In {E : Externals} {A : Type} (le : A -> A -> bool)
      (x : A) (l : list A) :
  In x (db_order_by le l) <-> In x l.
Proof.
  split; apply Permutation_in;
    [|symmetry]; apply db_order_by_perm.
Qed.

Lemma db_order_by_length {E : Externals} {A : Type} (le : A -> A -> bool)
      (l : list A) :
  length (db_order_by le l) = length l.
Proof.
  apply Permutation_length, db_order_by_perm.
Qed.

Lemma db_order_by_Sorted {E : Externals} {A : Type} (le : A -> A -> bool)
      (le_total : forall a b, le a b = true \/ le b a = true) (l : list A) :
  Sorted (rel_of le) (db_order_by le l).
Proof.
  now apply db_order_by_sorted.
Qed.

(** A toy instance of the interface, for evaluating the services: a
    bcrypt that refuses an empty password when hashing and one longer than
    72 characters always, and a database that sorts by stable insertion
    and reports the index on [username] first. *)
Definition toy_externals : Externals :=
  {| bcrypt_generate := fun salt pw =>
       if ((String.length pw =? 0) || (72 <? String.length pw))%nat
       then inl (ValueError "Password must be non-empty and at most 72 bytes")
       else inr (salt ++ "$" ++ pw)%string;
     bcrypt_check := fun h pw =>
       if (72 <? String.length pw)%nat
       then inl (ValueError "Password must be non-empty and at most 72 bytes")
       else inr (Py.contains (String "$" pw) h);
     email_index_first := false;
     db_order_by := @order_by;
     db_order_by_perm := @order_by_perm;
     db_order_by_sorted := fun A le l H => @order_by_Sorted A le H l;
     Model_hasattr := fun name => (name =? "query")%string
                                  || (name =? "metadata")%string;
     foreign_order := fun name _ => inl (OtherException name) |}.

(** * Properties *)

(** ** Lists and queries *)

Lemma find_none_iff {A : Type} (f : A -> bool) (l : list A) :
  find f l = None <-> (forall x, In x l -> f x = false).
Proof.
  split; [apply find_none|].
  induction l as [|a l IH]; intros H; simpl; [reflexivity|].
  rewrite (H a (or_introl eq_refl)).
  apply IH. intros x Hx. apply H. now right.
Qed.

Lemma find_none_existsb {A : Type} (f : A -> bool) (l : list A) :
  find f l = None -> existsb f l = false.
Proof.
  induction l as [|a l IH]; simpl; [reflexivity|].
  destruct (f a); [discriminate|]. exact IH.
Qed.

Lemma find_app_none {A : Type} (f : A -> bool) (l l' : list A) :
  find f l = None -> find f (l ++ l') = find f l'.
Proof.
  induction l as [|a l IH]; simpl; [reflexivity|].
  destruct (f a); [discriminate|]. exact IH.
Qed.

Lemma find_map_compat {A : Type} (f : A -> bool) (g : A -> A) (l : list A) :
  (forall x, f (g x) = f x) ->
  find f (map g l) = option_map g (find f l).
Proof.
  intros Hg. induction l as [|a l IH]; simpl; [reflexivity|].
  rewrite Hg. destruct (f a); [reflexivity|]. exact IH.
Qed.

Lemma NoDup_map_eq {A B : Type} (f : A -> B) (l : list A) (x y : A) :
  NoDup (map f l) -> In x l -> In y l -> f x = f y -> x = y.
Proof.
  induction l as [|a l IH]; simpl; intros Hnd Hx Hy Hxy; [contradiction|].
  inversion Hnd as [|? ? Hnotin Hnd']; subst.
  destruct Hx as [-> | Hx], Hy as [-> | Hy].
  - reflexivity.
  - exfalso. apply Hnotin. rewrite Hxy. now apply in_map.
  - exfalso. apply Hnotin. rewrite <- Hxy. now apply in_map.
  - now apply IH.
Qed.

Lemma NoDup_map_filter {A B : Type} (f : A -> B) (g : A -> bool) (l : list A) :
  NoDup (map f l) -> NoDup (map f (filter g l)).
Proof.
  induction l as [|a l IH]; simpl; intros Hnd; [constructor|].
  inversion Hnd as [|? ? Hnotin Hnd']; subst.
  destruct (g a); simpl; [|now apply IH].
  constructor; [|now apply IH].
  intros Hin. apply Hnotin.
  apply in_map_iff in Hin. destruct Hin as [x [Hx Hin]].
  apply filter_In in Hin. rewrite <- Hx. apply in_map. tauto.
Qed.

Lemma vote_of_spec (u p : Z) (v : Vote.t) :
  vote_of u p v = true <-> vote_key v = (u, p).
Proof.
  unfold vote_of, vote_key. rewrite andb_true_iff, !Z.eqb_eq.
  split; [intros [-> ->]; reflexivity | intros H; inversion H; auto].
Qed.

Lemma vote_of_set_vote_type (u p : Z) (v : Vote.t) (b : bool) :
  vote_of u p (Vote.set_vote_type v b) = vote_of u p v.
Proof. reflexivity. Qed.

Lemma Vote_first_In (st : Store) (u p : Z) (v : Vote.t) :
  Vote_first st u p = Some v -> In v (votes st) /\ vote_key v = (u, p).
Proof.
  unfold Vote_first. intros H. apply find_some in H.
  destruct H as [Hin Hk]. split; [exact Hin | now apply vote_of_spec].
Qed.

(** With the constraint, deleting the row of a pair leaves the pair
    without a row. *)
Lemma Vote_first_delete (st : Store) (u p : Z) (v : Vote.t) :
  votes_unique st ->
  Vote_first st u p = Some v ->
  Vote_first (delete_vote st v) u p = None.
Proof.
  intros Hu Hv. apply Vote_first_In in Hv. destruct Hv as [Hin Hk].
  unfold Vote_first, delete_vote; simpl.
  apply find_none_iff. intros w Hw.
  apply filter_In in Hw. destruct Hw as [Hw Hid].
  destruct (vote_of u p w) eqn:Hof; [|reflexivity].
  apply vote_of_spec in Hof.
  assert (w = v) by (apply (NoDup_map_eq vote_key (votes st)); auto; congruence).
  subst w. rewrite Z.eqb_refl in Hid. discriminate.
Qed.

Lemma Vote_first_update (st : Store) (u p : Z) (v : Vote.t) (b : bool) :
  Vote_first st u p = Some v ->
  Vote_first (update_vote_type st v b) u p = Some (Vote.set_vote_type v b).
Proof.
  intros Hv. unfold Vote_first, update_vote_type in *; simpl.
  rewrite find_map_compat.
  - rewrite Hv. simpl. now rewrite Z.eqb_refl.
  - intros x. destruct (Vote.id x =? Vote.id v); reflexivity.
Qed.

Lemma insert_vote_fresh (st : Store) (u p now : Z) (b : bool) :
  Vote_first st u p = None ->
  insert_vote st u p b now
  = inl (set_votes st
           (votes st ++ [Vote.mk (fresh_id (map Vote.id (votes st))) u p b now])).
Proof.
  intros H. unfold insert_vote.
  now rewrite (find_none_existsb _ _ H).
Qed.

Lemma Vote_first_insert (st : Store) (u p : Z) (v : Vote.t) :
  Vote_first st u p = None ->
  vote_key v = (u, p) ->
  Vote_first (set_votes st (votes st ++ [v])) u p = Some v.
Proof.
  intros H Hk. unfold Vote_first in *; simpl.
  rewrite (find_app_none _ _ _ H). simpl.
  apply vote_of_spec in Hk. now rewrite Hk.
Qed.

(** ** The vote toggle *)

Lemma Post_get_bind (st : Store) (p : Z) (post : Post.t) :
  Post_get st p = Some post -> bind p = None.
Proof.
  unfold Post_get, bind. now destruct (int64 p).
Qed.

Lemma User_get_bind (st : Store) (u : Z) (user : User.t) :
  User_get st u = Some user -> bind u = None.
Proof.
  unfold User_get, bind. now destruct (int64 u).
Qed.

Lemma Post_get_find (st : Store) (p : Z) (post : Post.t) :
  Post_get st p = Some post ->
  int64 p = true /\ find (fun q => Post.id q =? p) (posts st) = Some post.
Proof.
  unfold Post_get. now destruct (int64 p).
Qed.

Lemma User_get_find (st : Store) (u : Z) (user : User.t) :
  User_get st u = Some user ->
  int64 u = true /\ find (fun w => User.id w =? u) (users st) = Some user.
Proof.
  unfold User_get. now destruct (int64 u).
Qed.

Lemma bind_none (n : Z) : int64 n = true -> bind n = None.
Proof.
  unfold bind. now intros ->.
Qed.

Lemma bind_overflow (n : Z) : int64 n = false -> bind n = Some OverflowError.
Proof.
  unfold bind. now intros ->.
Qed.




(** ** The uniqueness constraint as an invariant *)

Lemma NoDup_snoc {A : Type} (l : list A) (x : A) :
  NoDup l -> ~ In x l -> NoDup (l ++ [x]).
Proof.
  induction l as [|a l IH]; simpl; intros Hnd Hx.
  - constructor; [tauto | constructor].
  - inversion Hnd as [|? ? Ha Hl]; subst. constructor.
    + rewrite in_app_iff. simpl. intros [H | [H | []]]; [tauto|].
      apply Hx. now left.
    + apply IH; tauto.
Qed.

Lemma Vote_first_none_key (st : Store) (u p : Z) :
  Vote_first st u p = None -> ~ In (u, p) (map vote_key (votes st)).
Proof.
  intros H Hin. apply in_map_iff in Hin. destruct Hin as [v [Hk Hv]].
  apply (proj1 (find_none_iff _ _) H) in Hv.
  apply vote_of_spec in Hk. congruence.
Qed.

(** The store a successful [vote_post] leaves, by the three cases. *)
Lemma vote_post_store (st : Store) (now u p : Z) (b : bool) (post : Post.t) :
  Post_get st p = Some post ->
  fst (VoteService.vote_post st now u p b)
  = match Vote_first st u p with
    | Some v => if Bool.eqb (Vote.vote_type v) b
                then delete_vote st v
                else update_vote_type st v b
    | None => set_votes st
                (votes st ++ [Vote.mk (fresh_id (map Vote.id (votes st)))
                                      u p b now])
    end.
Proof.
  intros Hpost. unfold VoteService.vote_post.
  rewrite (Post_get_bind _ _ _ Hpost), Hpost.
  destruct (Vote_first st u p) as [v|] eqn:Hfirst.
  - now destruct (Bool.eqb (Vote.vote_type v) b).
  - now rewrite (insert_vote_fresh _ _ _ _ _ Hfirst).
Qed.

Lemma vote_post_not_found (st : Store) (now u p : Z) (b : bool) :
  Post_get st p = None -> fst (VoteService.vote_post st now u p b) = st.
Proof.
  intros H. unfold VoteService.vote_post.
  destruct (bind p); [reflexivity|]. now rewrite H.
Qed.

Lemma vote_post_posts (st : Store) (now u p : Z) (b : bool) :
  posts (fst (VoteService.vote_post st now u p b)) = posts st.
Proof.
  destruct (Post_get st p) as [post|] eqn:Hpost.
  - rewrite (vote_post_store _ _ _ _ _ _ Hpost).
    destruct (Vote_first st u p) as [v|]; [|reflexivity].
    now destruct (Bool.eqb (Vote.vote_type v) b).
  - now rewrite vote_post_not_found.
Qed.

Lemma vote_post_unique (st : Store) (now u p : Z) (b : bool) :
  votes_unique st -> votes_unique (fst (VoteService.vote_post st now u p b)).
Proof.
  intros Hu.
  destruct (Post_get st p) as [post|] eqn:Hpost;
    [|now rewrite vote_post_not_found].
  rewrite (vote_post_store _ _ _ _ _ _ Hpost).
  destruct (Vote_first st u p) as [v|] eqn:Hfirst.
  - destruct (Bool.eqb (Vote.vote_type v) b); unfold votes_unique; simpl.
    + now apply NoDup_map_filter.
    + rewrite map_map.
      rewrite (map_ext _ vote_key); [exact Hu|].
      intros w. now destruct (Vote.id w =? Vote.id v).
  - unfold votes_unique; simpl. rewrite map_app. simpl.
    apply NoDup_snoc; [exact Hu|].
    now apply Vote_first_none_key.
Qed.

Lemma serve_unique {E : Externals} (st : Store) (r : request) :
  votes_unique st -> votes_unique (serve st r).
Proof.
  intros Hu. destruct r; simpl.
  - unfold UserService.create_user, UserService.insert_user.
    destruct (bcrypt_generate salt password); [exact Hu|]. cbv zeta.
    repeat match goal with
           | |- context [if ?c then _ else _] => destruct c
           end; exact Hu.
  - unfold PostService.create_post.
    destruct (bind_opt author_id); exact Hu.
  - unfold PostService.update_post.
    destruct (bind post_id); [exact Hu|].
    destruct (Post_get st post_id); exact Hu.
  - unfold PostService.delete_post.
    destruct (bind post_id); [exact Hu|].
    destruct (Post_get st post_id) as [post|]; [|exact Hu].
    match goal with
    | |- context [if ?c then _ else _] => destruct c
    end; [exact Hu|].
    unfold votes_unique; simpl. now apply NoDup_map_filter.
  - now apply vote_post_unique.
  - unfold CommentService.create_comment.
    destruct (bind post_id); [exact Hu|].
    destruct (Post_get st post_id); [|exact Hu].
    destruct (bind author_id); exact Hu.
Qed.

(** The constraint itself: an INSERT into [votes] either is refused or
    leaves the table with one row per pair, whatever was read before. *)
Lemma insert_vote_unique (st : Store) (u p now : Z) (b : bool) :
  votes_unique st ->
  match insert_vote st u p b now with
  | inl st' => votes_unique st'
  | inr _ => True
  end.
Proof.
  intros Hu. unfold insert_vote.
  destruct (existsb (vote_of u p) (votes st)) eqn:Hex; [exact I|].
  unfold votes_unique; simpl. rewrite map_app. simpl.
  apply NoDup_snoc; [exact Hu|].
  intros Hin. apply in_map_iff in Hin. destruct Hin as [v [Hk Hv]].
  apply vote_of_spec in Hk.
  assert (existsb (vote_of u p) (votes st) = true)
    by (apply existsb_exists; now exists v).
  congruence.
Qed.

(** C2. Every request that writes to the store (creating a user, a post or
    a comment, updating or deleting a post, voting) preserves "at most one
    row of [votes] per (user_id, post_id)", so every store reachable from
    the empty database has at most one vote row per pair; and an INSERT
    into [votes] that the constraint lets through preserves it too. *)
Theorem votes_unique_invariant :
  forall (E : Externals),
    (forall st r, votes_unique st -> votes_unique (serve st r))
    /\ (forall st, reachable st -> votes_unique st)
    /\ (forall st u p b now st',
          votes_unique st -> insert_vote st u p b now = inl st' ->
          votes_unique st').
Proof.
  intros E. split; [|split].
  - intros st r. apply serve_unique.
  - intros st Hreach. induction Hreach as [|st r _ IH].
    + constructor.
    + now apply serve_unique.
  - intros st u p b now st' Hu Hins.
    pose proof (insert_vote_unique st u p now b Hu) as H.
    now rewrite Hins in H.
Qed.

Lemma votes_unique_invariant_witness :
  votes_unique
    (@serve toy_externals
       (@serve toy_externals
          (@serve toy_externals empty_store
             (CreatePost 100 "Hello" "A first post with a body." "Ann" (Some 1)))
          (VotePost 110 1 1 true))
       (VotePost 120 2 1 false)).
Proof.
  apply (proj1 (proj2 (votes_unique_invariant toy_externals))).
  repeat apply reachable_serve. apply reachable_empty.
Defined.

(** ** Voting twice *)

Lemma Post_get_id (st : Store) (p : Z) (post : Post.t) :
  Post_get st p = Some post -> Post.id post = p.
Proof.
  intros H. apply Post_get_find in H. destruct H as [_ H].
  apply find_some in H. now apply Z.eqb_eq.
Qed.

Lemma vote_post_Post_get (st : Store) (now u p q : Z) (b : bool) :
  Post_get (fst (VoteService.vote_post st now u p b)) q = Post_get st q.
Proof.
  unfold Post_get. now rewrite vote_post_posts.
Qed.

(** One successful call moves the pair along the transition table. *)
Lemma vote_post_state (st : Store) (now u p : Z) (b : bool) (post : Post.t) :
  Post_get st p = Some post ->
  votes_unique st ->
  vote_state_of (fst (VoteService.vote_post st now u p b)) u p
  = fst (transition (vote_state_of st u p) b).
Proof.
  intros Hpost Hu. rewrite (vote_post_store _ _ _ _ _ _ Hpost).
  unfold vote_state_of at 2.
  destruct (Vote_first st u p) as [v|] eqn:Hfirst.
  - destruct (Bool.eqb (Vote.vote_type v) b) eqn:Hsame; unfold vote_state_of.
    + rewrite (Vote_first_delete _ _ _ _ Hu Hfirst).
      apply eqb_prop in Hsame. rewrite Hsame. now destruct b.
    + rewrite (Vote_first_update _ _ _ _ _ Hfirst). simpl.
      destruct (Vote.vote_type v), b; simpl in *; congruence.
  - unfold vote_state_of.
    rewrite Vote_first_insert by (assumption || reflexivity).
    now destruct b.
Qed.

(** C3 as stated fails: a user who has upvoted and upvotes twice more is
    back at the upvote, not at the no-vote state. *)
Lemma vote_twice_from_same_type_counterexample :
  Post_get one_post_upvoted 1 = Some first_post
  /\ votes_unique one_post_upvoted
  /\ vote_state_of (vote_then_vote one_post_upvoted 120 130 1 1 true true) 1 1
     <> NoVote.
Proof.
  split; [reflexivity|]. split.
  - unfold votes_unique; simpl. repeat constructor; simpl; tauto.
  - vm_compute. discriminate.
Qed.

(** C3, amended. For an existing post and a store that satisfies the
    uniqueness constraint, two calls of [vote_post] in succession with the
    same vote type leave the pair in the no-vote state when it started
    without a vote or with a vote of the other type, and leave it with a
    vote of the requested type when it started with one of that type. *)
Theorem vote_twice_same_type :
  forall (st : Store) (now1 now2 u p : Z) (b : bool) (post : Post.t),
    Post_get st p = Some post ->
    votes_unique st ->
    (vote_state_of st u p <> state_of_type b ->
     vote_state_of (vote_then_vote st now1 now2 u p b b) u p = NoVote)
    /\ (vote_state_of st u p = state_of_type b ->
        vote_state_of (vote_then_vote st now1 now2 u p b b) u p
        = state_of_type b).
Proof.
  intros st now1 now2 u p b post Hpost Hu.
  assert (Htwice :
    vote_state_of (vote_then_vote st now1 now2 u p b b) u p
    = fst (transition (fst (transition (vote_state_of st u p) b)) b)).
  { unfold vote_then_vote.
    rewrite (vote_post_state _ now2 u p b post).
    - now rewrite (vote_post_state _ now1 u p b post).
    - now rewrite vote_post_Post_get.
    - now apply vote_post_unique. }
  rewrite Htwice. split; intros Hs.
  - destruct (vote_state_of st u p), b; simpl in *; congruence.
  - rewrite Hs. now destruct b.
Qed.

Lemma vote_twice_same_type_witness :
  vote_state_of (vote_then_vote one_post 120 130 1 1 true true) 1 1 = NoVote
  /\ vote_state_of (vote_then_vote one_post_upvoted 120 130 1 1 true true) 1 1
     = Upvoted.
Proof.
  split.
  - apply (proj1 (vote_twice_same_type one_post 120 130 1 1 true first_post
                    eq_refl (NoDup_nil _))).
    vm_compute. discriminate.
  - apply (proj2 (vote_twice_same_type one_post_upvoted 120 130 1 1 true
                    first_post eq_refl
                    (NoDup_cons _ (fun H : In (1, 1) [] => H) (NoDup_nil _)))).
    reflexivity.
Defined.

(** ** The net score *)

Lemma fresh_id_gt (ids : list Z) (x : Z) : In x ids -> x < fresh_id ids.
Proof.
  unfold fresh_id. induction ids as [|a ids IH]; cbn [fold_right In];
    [contradiction|].
  intros [-> | Hx]; [lia|]. specialize (IH Hx). lia.
Qed.

Lemma filter_none {A : Type} (f : A -> bool) (l : list A) :
  (forall x, In x l -> f x = false) -> filter f l = [].
Proof.
  induction l as [|a l IH]; intros H; simpl; [reflexivity|].
  rewrite (H a (or_introl eq_refl)). apply IH.
  intros x Hx. apply H. now right.
Qed.

Lemma count_votes_snoc (st : Store) (v : Vote.t) (q : Z) (t : bool) :
  count_votes (set_votes st (votes st ++ [v])) q t
  = count_votes st q t
    + (if (Vote.post_id v =? q) && Bool.eqb (Vote.vote_type v) t
       then 1 else 0).
Proof.
  unfold count_votes; simpl. rewrite filter_app, length_app. simpl.
  destruct ((Vote.post_id v =? q) && Bool.eqb (Vote.vote_type v) t);
    simpl; lia.
Qed.

(** Changing the type of the row just inserted touches no other row. *)
Lemma update_fresh_row (st : Store) (u p now : Z) (b b' : bool) :
  let v := Vote.mk (fresh_id (map Vote.id (votes st))) u p b now in
  update_vote_type (set_votes st (votes st ++ [v])) v b'
  = set_votes st (votes st ++ [Vote.set_vote_type v b']).
Proof.
  intros v. unfold update_vote_type, set_votes; simpl. f_equal.
  rewrite map_app. simpl. rewrite Z.eqb_refl. f_equal.
  rewrite <- (map_id (votes st)) at 2.
  apply map_ext_in. intros w Hw.
  assert (Vote.id w < fresh_id (map Vote.id (votes st)))
    by (apply fresh_id_gt; now apply in_map).
  destruct (Vote.id w =? fresh_id (map Vote.id (votes st))) eqn:Heq;
    [apply Z.eqb_eq in Heq; lia | reflexivity].
Qed.

Lemma vote_post_result (st : Store) (now u p : Z) (b : bool) (post : Post.t) :
  Post_get st p = Some post ->
  exists d, snd (VoteService.vote_post st now u p b) = Ok d
            /\ d_vote_score d
               = vote_score (fst (VoteService.vote_post st now u p b)) p.
Proof.
  intros Hpost. pose proof (Post_get_id _ _ _ Hpost) as Hid.
  unfold VoteService.vote_post.
  rewrite (Post_get_bind _ _ _ Hpost), Hpost.
  destruct (Vote_first st u p) as [v|] eqn:Hfirst.
  - destruct (Bool.eqb (Vote.vote_type v) b); simpl;
      eexists; (split; [reflexivity|]); simpl; now rewrite Hid.
  - rewrite (insert_vote_fresh _ _ _ _ _ Hfirst). simpl.
    eexists; (split; [reflexivity|]); simpl; now rewrite Hid.
Qed.

(** C4 as stated fails: after the upvote and the downvote the score is 1
    below the score before the upvote, not 2 below it. *)
Lemma upvote_then_downvote_counterexample :
  Post_get one_post 1 = Some first_post
  /\ votes one_post = []
  /\ vote_score (vote_then_vote one_post 120 130 1 1 true false) 1
     - vote_score one_post 1 <> -2.
Proof.
  split; [reflexivity|]. split; [reflexivity|].
  vm_compute. discriminate.
Qed.

(** C4, amended. For an existing post [p] on which user [u] has no vote,
    an upvote by [u] raises the net score of [p] by 1 and the downvote by
    [u] that follows lowers it by exactly 2 relative to the score after the
    upvote, which is 1 below the score before the upvote; both calls report
    these scores; when no vote at all exists on [p] the score goes from 0
    to 1 to -1. *)
Theorem upvote_then_downvote_score :
  forall (st : Store) (now1 now2 u p : Z) (post : Post.t),
    Post_get st p = Some post ->
    Vote_first st u p = None ->
    let st1 := fst (VoteService.vote_post st now1 u p true) in
    let st2 := fst (VoteService.vote_post st1 now2 u p false) in
    vote_score st1 p = vote_score st p + 1
    /\ vote_score st2 p = vote_score st1 p - 2
    /\ vote_score st2 p = vote_score st p - 1
    /\ (exists d1 d2,
          snd (VoteService.vote_post st now1 u p true) = Ok d1
          /\ snd (VoteService.vote_post st1 now2 u p false) = Ok d2
          /\ d_vote_score d1 = vote_score st p + 1
          /\ d_vote_score d2 = vote_score st p - 1)
    /\ ((forall v, In v (votes st) -> Vote.post_id v <> p) ->
        vote_score st p = 0 /\ vote_score st1 p = 1 /\ vote_score st2 p = -1).
Proof.
  intros st now1 now2 u p post Hpost Hnone st1 st2.
  set (v := Vote.mk (fresh_id (map Vote.id (votes st))) u p true now1).
  assert (H1 : st1 = set_votes st (votes st ++ [v])).
  { unfold st1. rewrite (vote_post_store _ _ _ _ _ _ Hpost).
    now rewrite Hnone. }
  assert (Hpost1 : Post_get st1 p = Some post).
  { unfold st1. now rewrite vote_post_Post_get. }
  assert (H2 : st2 = set_votes st (votes st ++ [Vote.set_vote_type v false])).
  { unfold st2. rewrite (vote_post_store _ _ _ _ _ _ Hpost1).
    rewrite H1. rewrite Vote_first_insert by (assumption || reflexivity).
    simpl Bool.eqb. cbv iota.
    apply (update_fresh_row st u p now1 true false). }
  assert (S1 : vote_score st1 p = vote_score st p + 1).
  { rewrite H1. unfold vote_score, upvotes, downvotes.
    rewrite !count_votes_snoc. simpl. rewrite Z.eqb_refl. simpl. lia. }
  assert (S2 : vote_score st2 p = vote_score st p - 1).
  { rewrite H2. unfold vote_score, upvotes, downvotes.
    rewrite !count_votes_snoc. simpl. rewrite Z.eqb_refl. simpl. lia. }
  split; [exact S1|]. split; [lia|]. split; [exact S2|]. split.
  - destruct (vote_post_result st now1 u p true post Hpost) as [d1 [E1 D1]].
    destruct (vote_post_result st1 now2 u p false post Hpost1) as [d2 [E2 D2]].
    exists d1, d2. fold st1 in D1. fold st2 in D2.
    repeat split; try assumption; lia.
  - intros Hnovotes.
    assert (S0 : vote_score st p = 0).
    { unfold vote_score, upvotes, downvotes, count_votes.
      rewrite !filter_none; [reflexivity| |];
        intros w Hw; apply Hnovotes in Hw;
        apply Z.eqb_neq in Hw; now rewrite Hw. }
    lia.
Qed.

Lemma upvote_then_downvote_score_witness :
  vote_score one_post 1 = 0
  /\ vote_score (fst (VoteService.vote_post one_post 120 1 1 true)) 1 = 1
  /\ vote_score (vote_then_vote one_post 120 130 1 1 true false) 1 = -1.
Proof.
  apply (upvote_then_downvote_score one_post 120 130 1 1 first_post
           eq_refl eq_refl).
  intros v [].
Defined.

(** ** Partial update of a post *)

Lemma find_map_replace (posts : list Post.t) (post post' : Post.t) (pid : Z) :
  find (fun p => Post.id p =? pid) posts = Some post ->
  Post.id post' = Post.id post ->
  find (fun p => Post.id p =? pid)
       (map (fun p => if Post.id p =? Post.id post then post' else p) posts)
  = Some post'.
Proof.
  intros Hfind Hid.
  assert (Hpid : Post.id post = pid).
  { apply find_some in Hfind. now apply Z.eqb_eq. }
  subst pid.
  induction posts as [|a l IH]; simpl in *; [discriminate|].
  destruct (Post.id a =? Post.id post) eqn:Ha.
  - rewrite Hid, Z.eqb_refl. reflexivity.
  - rewrite Ha. now apply IH.
Qed.

(** C5 as stated fails: a title of one space passes the truth test and is
    stored stripped, which clears the stored title to the empty string. *)
Lemma update_post_clears_title_counterexample :
  Post_get one_post 1 = Some first_post
  /\ Post.title first_post <> EmptyString
  /\ option_map Post.title
       (Post_get (fst (PostService.update_post one_post 200 1
                         (Some " "%string) None None)) 1)
     = Some EmptyString.
Proof.
  split; [reflexivity|]. split; [discriminate | reflexivity].
Qed.

(** C5, amended. For every existing post, [update_post] succeeds and
    stores the row it returns.  A title, body or author id that is omitted,
    [None] or falsy (the empty string, the id 0) is ignored and the stored
    value is left unchanged; in particular an update with only a title
    leaves the body unchanged, and passing the empty string never clears a
    field.  A title or body that is not the empty string is stored with its
    surrounding whitespace stripped.  The id, author name, publication time
    and published flag are kept and [updated_at] becomes the time of the
    call. *)
Theorem update_post_partial :
  forall (st : Store) (now post_id : Z)
         (title body : option string) (author_id : option Z) (post : Post.t),
    Post_get st post_id = Some post ->
    exists st' post',
      PostService.update_post st now post_id title body author_id
      = (st', Ok post')
      /\ Post_get st' post_id = Some post'
      /\ (Py.opt_str_truthy title = false -> Post.title post' = Post.title post)
      /\ (Py.opt_str_truthy body = false -> Post.body post' = Post.body post)
      /\ (Py.opt_int_truthy author_id = false ->
          Post.author_id post' = Post.author_id post)
      /\ (forall t, title = Some t -> t <> EmptyString ->
          Post.title post' = Py.strip t)
      /\ (forall b, body = Some b -> b <> EmptyString ->
          Post.body post' = Py.strip b)
      /\ Post.id post' = Post.id post
      /\ Post.author post' = Post.author post
      /\ Post.published_at post' = Post.published_at post
      /\ Post.is_published post' = Post.is_published post
      /\ Post.updated_at post' = now.
Proof.
  intros st now post_id title body author_id post Hpost.
  unfold PostService.update_post.
  rewrite (Post_get_bind _ _ _ Hpost), Hpost.
  eexists. eexists. split; [reflexivity|].
  split.
  { apply Post_get_find in Hpost. destruct Hpost as [Hrange Hfind].
    unfold Post_get; simpl. rewrite Hrange. now apply find_map_replace. }
  simpl. repeat split.
  - destruct title as [[|c t]|]; simpl; intros H; (reflexivity || discriminate).
  - destruct body as [[|c t]|]; simpl; intros H; (reflexivity || discriminate).
  - intros H. now rewrite H.
  - intros t -> Ht. destruct t; [contradiction | reflexivity].
  - intros b -> Hb. destruct b; [contradiction | reflexivity].
Qed.

Lemma update_post_partial_witness :
  exists st' post',
    PostService.update_post one_post 200 1
      (Some "X"%string) None None = (st', Ok post')
    /\ Post.title post' = "X"%string
    /\ Post.body post' = Post.body first_post.
Proof.
  destruct (update_post_partial one_post 200 1
              (Some "X"%string) None None first_post eq_refl)
    as [st' [post' [Heq [_ [_ [Hbody [_ [Htitle _]]]]]]]].
  exists st', post'. split; [exact Heq|]. split.
  - apply (Htitle "X"%string eq_refl). discriminate.
  - apply Hbody. reflexivity.
Defined.

(** ** Search with a blank query *)

(** C6. For every page and page size, [search_posts] with a query that is
    absent, empty or only whitespace returns what [get_all_posts] returns
    with its default sort ([published_at], descending): the same page of
    the published posts, newest first, in the same order. *)
Theorem search_blank_is_default_list :
  forall (E : Externals) (st : Store) (query : option string)
         (page per_page : Z),
    is_blank query = true ->
    PostService.search_posts st query page per_page
    = PostService.get_all_posts st page per_page "published_at" "desc"
    /\ PostService.search_posts st query page per_page
       = Ok (list_default st page per_page).
Proof.
  intros E st query page per_page Hblank.
  assert (Hsearch :
    PostService.search_posts st query page per_page
    = PostService.get_all_posts st page per_page "published_at" "desc").
  { unfold PostService.search_posts. destruct query as [q|]; [|reflexivity].
    simpl in Hblank. apply negb_true_iff in Hblank. rewrite Hblank.
    simpl. now rewrite orb_true_r. }
  split; [exact Hsearch|]. rewrite Hsearch. reflexivity.
Qed.

Lemma search_blank_is_default_list_witness :
  @PostService.search_posts toy_externals one_post (Some "   "%string) 1 10
  = @PostService.get_all_posts toy_externals one_post 1 10 "published_at" "desc".
Proof.
  apply (search_blank_is_default_list toy_externals one_post
           (Some "   "%string) 1 10).
  reflexivity.
Defined.

(** ** Ordering and pagination *)

Lemma Sorted_skipn {A : Type} (R : A -> A -> Prop) (n : nat) (l : list A) :
  Sorted R l -> Sorted R (skipn n l).
Proof.
  revert l. induction n as [|n IH]; intros l Hl; [exact Hl|].
  destruct l as [|a l]; [constructor|]. simpl.
  apply IH. now inversion Hl.
Qed.

Lemma Sorted_firstn {A : Type} (R : A -> A -> Prop) (n : nat) (l : list A) :
  Sorted R l -> Sorted R (firstn n l).
Proof.
  revert l. induction n as [|n IH]; intros l Hl; [constructor|].
  destruct l as [|a l]; [constructor|]. simpl.
  inversion Hl as [|? ? Hl' Hhd]; subst.
  constructor; [now apply IH|].
  destruct n; [constructor|].
  destruct l; [constructor|]. simpl. constructor. now inversion Hhd.
Qed.

Lemma In_firstn {A : Type} (n : nat) (l : list A) (x : A) :
  In x (firstn n l) -> In x l.
Proof.
  revert l. induction n as [|n IH]; intros [|a l]; simpl; try tauto.
  intros [H | H]; [now left | right; now apply IH].
Qed.

Lemma In_skipn {A : Type} (n : nat) (l : list A) (x : A) :
  In x (skipn n l) -> In x l.
Proof.
  revert l. induction n as [|n IH]; intros [|a l]; simpl; try tauto.
  intros H. right. now apply IH.
Qed.

Lemma paginate_incl {A : Type} (rows : list A) (page per_page : Z) (x : A) :
  In x (items (paginate rows page per_page)) -> In x rows.
Proof.
  unfold paginate; simpl. intros H.
  apply In_firstn in H. now apply In_skipn in H.
Qed.

Lemma paginate_Sorted {A : Type} (R : A -> A -> Prop) (rows : list A)
      (page per_page : Z) :
  Sorted R rows -> Sorted R (items (paginate rows page per_page)).
Proof.
  intros H. unfold paginate; simpl.
  now apply Sorted_firstn, Sorted_skipn.
Qed.

Lemma col_compare_antisym (c : column) (p q : Post.t) :
  col_compare c q p = CompOpp (col_compare c p q).
Proof.
  destruct c; simpl;
    try apply Z.compare_antisym; try apply String.compare_antisym.
  - destruct (Post.author_id p), (Post.author_id q); simpl;
      try reflexivity. apply Z.compare_antisym.
  - now destruct (Post.is_published p), (Post.is_published q).
Qed.

Lemma asc_le_total (c : column) (p q : Post.t) :
  asc_le c p q = true \/ asc_le c q p = true.
Proof.
  unfold asc_le. rewrite (col_compare_antisym c p q).
  destruct (col_compare c p q); simpl; auto.
Qed.

Lemma desc_le_total (c : column) (p q : Post.t) :
  desc_le c p q = true \/ desc_le c q p = true.
Proof.
  unfold desc_le. rewrite (col_compare_antisym c p q).
  destruct (col_compare c p q); simpl; auto.
Qed.

(** ** Listing posts *)

(** On the two sort keys that are columns, [get_all_posts] succeeds and
    returns one page of the published posts, sorted by that column in the
    requested direction. *)
Lemma get_all_posts_on_columns (E : Externals) (st : Store)
      (page per_page : Z) (sort_by : string) (c : column) :
  (sort_by = "published_at"%string /\ c = Cpublished_at)
  \/ (sort_by = "title"%string /\ c = Ctitle) ->
  let published := filter Post.is_published (posts st) in
  PostService.get_all_posts st page per_page sort_by "desc"
  = Ok (paginate (db_order_by (desc_le c) published) page per_page)
  /\ PostService.get_all_posts st page per_page sort_by "asc"
     = Ok (paginate (db_order_by (asc_le c) published) page per_page)
  /\ (forall le pg,
        pg = paginate (db_order_by le published) page per_page ->
        forall p, In p (items pg) ->
                  In p (posts st) /\ Post.is_published p = true)
  /\ Sorted (fun p q => col_compare c p q <> Lt)
            (items (paginate (db_order_by (desc_le c) published) page per_page))
  /\ Sorted (fun p q => col_compare c p q <> Gt)
            (items (paginate (db_order_by (asc_le c) published) page per_page)).
Proof.
  intros Hsort published.
  split; [destruct Hsort as [[-> ->] | [-> ->]]; reflexivity|].
  split; [destruct Hsort as [[-> ->] | [-> ->]]; reflexivity|].
  split.
  - intros le pg -> p Hp. apply paginate_incl in Hp.
    apply db_order_by_In in Hp. now apply filter_In in Hp.
  - split; apply paginate_Sorted.
    + eapply Sorted_ind with (P := Sorted _);
        [constructor | | apply (db_order_by_Sorted (desc_le c) (desc_le_total c))].
      intros a l _ IH Hhd. constructor; [exact IH|].
      destruct Hhd as [|b l' Hab]; constructor.
      unfold rel_of, desc_le in Hab. intros Hlt. now rewrite Hlt in Hab.
    + eapply Sorted_ind with (P := Sorted _);
        [constructor | | apply (db_order_by_Sorted (asc_le c) (asc_le_total c))].
      intros a l _ IH Hhd. constructor; [exact IH|].
      destruct Hhd as [|b l' Hab]; constructor.
      unfold rel_of, asc_le in Hab. intros Hgt. now rewrite Hgt in Hab.
Qed.

(** C7, at the sort key [vote_score]: [Post.vote_score] is a Python
    property, not a column, so [get_all_posts] fails in both directions
    instead of returning the published posts sorted by score: descending,
    [sort_column.desc()] raises; ascending, [order_by] refuses the
    property. *)
Theorem get_all_posts_vote_score_fails :
  forall (E : Externals) (st : Store) (page per_page : Z),
    PostService.get_all_posts st page per_page "vote_score" "desc"
    = Err (Raised (AttributeError (PyProperty "vote_score") "desc"))
    /\ PostService.get_all_posts st page per_page "vote_score" "asc"
       = Err (Raised (OrderByError (PyProperty "vote_score"))).
Proof.
  intros E st page per_page. split; reflexivity.
Qed.

(** ** Authentication *)




(** ** Unpublished posts *)

(** C9. A post that exists with [is_published = false] is returned by
    [get_post_by_id]; no successful [get_all_posts] or [search_posts],
    whatever its arguments, has it among its items (every item of such a
    result is published); and the default listing and every search do
    succeed. *)
Theorem unpublished_post_by_id_only :
  forall (E : Externals) (st : Store) (post_id : Z) (post : Post.t),
    Post_get st post_id = Some post ->
    Post.is_published post = false ->
    PostService.get_post_by_id st post_id = Ok post
    /\ (forall page per_page sort_by order pg,
          PostService.get_all_posts st page per_page sort_by order = Ok pg ->
          ~ In post (items pg)
          /\ forall p, In p (items pg) -> Post.is_published p = true)
    /\ (forall query page per_page pg,
          PostService.search_posts st query page per_page = Ok pg ->
          ~ In post (items pg)
          /\ forall p, In p (items pg) -> Post.is_published p = true)
    /\ (forall page per_page,
          exists pg, PostService.get_all_posts st page per_page
                       "published_at" "desc" = Ok pg)
    /\ (forall query page per_page,
          exists pg, PostService.search_posts st query page per_page = Ok pg).
Proof.
  intros E st post_id post Hpost Hunpub.
  assert (Hall : forall page per_page sort_by order pg,
            PostService.get_all_posts st page per_page sort_by order = Ok pg ->
            forall p, In p (items pg) -> Post.is_published p = true).
  { intros page per_page sort_by order pg Hok p Hp.
    unfold PostService.get_all_posts in Hok.
    destruct (PostService.getattr_Post sort_by (Column Cpublished_at))
      as [c | name | name | name | value | name];
      try (destruct (Py.lower order =? "desc")%string; discriminate);
      try (destruct (foreign_order name _) as [e | le]; [discriminate|]);
      inversion Hok; subst pg;
      apply paginate_incl, db_order_by_In, filter_In in Hp; tauto. }
  assert (Hsearch : forall query page per_page pg,
            PostService.search_posts st query page per_page = Ok pg ->
            forall p, In p (items pg) -> Post.is_published p = true).
  { intros query page per_page pg Hok p Hp.
    unfold PostService.search_posts in Hok.
    destruct query as [q|]; [|now apply (Hall _ _ _ _ _ Hok)].
    destruct (negb (Py.str_truthy q) || negb (Py.str_truthy (Py.strip q)));
      [now apply (Hall _ _ _ _ _ Hok)|].
    inversion Hok; subst pg.
    apply paginate_incl, db_order_by_In, filter_In in Hp.
    destruct Hp as [_ Hp]. now apply andb_true_iff in Hp. }
  split; [unfold PostService.get_post_by_id; now rewrite (Post_get_bind _ _ _ Hpost), Hpost|].
  split; [|split; [|split]].
  - intros page per_page sort_by order pg Hok. split.
    + intros Hin. apply (Hall _ _ _ _ _ Hok) in Hin. congruence.
    + now apply (Hall _ _ _ _ _ Hok).
  - intros query page per_page pg Hok. split.
    + intros Hin. apply (Hsearch _ _ _ _ Hok) in Hin. congruence.
    + now apply (Hsearch _ _ _ _ Hok).
  - intros page per_page. eexists. reflexivity.
  - intros query page per_page. unfold PostService.search_posts.
    destruct query as [q|]; [|eexists; reflexivity].
    destruct (negb (Py.str_truthy q) || negb (Py.str_truthy (Py.strip q)));
      eexists; reflexivity.
Qed.

Lemma unpublished_post_by_id_only_witness :
  PostService.get_post_by_id with_draft 2 = Ok draft_post
  /\ exists pg, @PostService.get_all_posts toy_externals with_draft 1 10
                  "published_at" "desc" = Ok pg
                /\ ~ In draft_post (items pg).
Proof.
  destruct (unpublished_post_by_id_only toy_externals with_draft 2 draft_post
              eq_refl eq_refl) as [Hget [Hall [_ [Hok _]]]].
  split; [exact Hget|].
  destruct (Hok 1 10) as [pg Hpg]. exists pg. split; [exact Hpg|].
  apply (Hall 1 10 "published_at"%string "desc"%string pg Hpg).
Defined.

(** ** Deleting a post that has no author *)

Lemma fresh_id_pos (ids : list Z) : 1 <= fresh_id ids.
Proof.
  unfold fresh_id. induction ids as [|a ids IH]; cbn [fold_right]; lia.
Qed.

Lemma serve_user_ids {E : Externals} (st : Store) (r : request) :
  Forall (fun u => 1 <= User.id u) (users st) ->
  Forall (fun u => 1 <= User.id u) (users (serve st r)).
Proof.
  intros H. destruct r; simpl; try exact H.
  - unfold UserService.create_user, UserService.insert_user.
    destruct (bcrypt_generate salt password); [exact H|]. cbv zeta.
    repeat match goal with
           | |- context [if ?c then _ else _] => destruct c
           end; try exact H.
    simpl. apply Forall_app. split; [exact H|].
    constructor; [apply fresh_id_pos | constructor].
  - unfold PostService.create_post.
    destruct (bind_opt author_id); exact H.
  - unfold PostService.update_post.
    destruct (bind post_id); [exact H|].
    destruct (Post_get st post_id); exact H.
  - unfold PostService.delete_post.
    destruct (bind post_id); [exact H|].
    destruct (Post_get st post_id); [|exact H].
    match goal with
    | |- context [if ?c then _ else _] => destruct c
    end; exact H.
  - destruct (Post_get st post_id) as [post|] eqn:Hpost.
    + rewrite (vote_post_store _ _ _ _ _ _ Hpost).
      destruct (Vote_first st user_id post_id) as [v|]; [|exact H].
      destruct (Bool.eqb (Vote.vote_type v) vote_type); exact H.
    + now rewrite vote_post_not_found.
  - unfold CommentService.create_comment.
    destruct (bind post_id); [exact H|].
    destruct (Post_get st post_id); [|exact H].
    destruct (bind author_id); exact H.
Qed.

Lemma reachable_user_ids {E : Externals} (st : Store) :
  reachable st -> Forall (fun u => 1 <= User.id u) (users st).
Proof.
  induction 1 as [|st r _ IH]; [constructor | now apply serve_user_ids].
Qed.

Lemma User_get_id (st : Store) (uid : Z) (u : User.t) :
  User_get st uid = Some u -> In u (users st) /\ User.id u = uid.
Proof.
  intros H. apply User_get_find in H. destruct H as [_ H].
  apply find_some in H.
  destruct H as [Hin Hid]. split; [exact Hin | now apply Z.eqb_eq].
Qed.

Lemma delete_post_unauthorized (st : Store) (post_id a : Z) (post : Post.t) :
  Post_get st post_id = Some post ->
  Post.author_id post = None ->
  a <> 0 ->
  PostService.delete_post st post_id (Some a)
  = (st, Err (Message "Unauthorized to delete this post")).
Proof.
  intros Hpost Hnull Ha. unfold PostService.delete_post.
  rewrite (Post_get_bind _ _ _ Hpost), Hpost, Hnull. simpl.
  apply Z.eqb_neq in Ha. now rewrite Ha.
Qed.

Lemma route_delete_refused (st : Store) (identity : option Z)
      (post_id : Z) (post : Post.t) :
  Post_get st post_id = Some post ->
  Post.author_id post = None ->
  (forall u, In u (users st) -> identity = Some (User.id u) -> User.id u <> 0) ->
  fst (Routes.delete_post st identity post_id) = st
  /\ (snd (Routes.delete_post st identity post_id) = 401
      \/ snd (Routes.delete_post st identity post_id) = 403).
Proof.
  intros Hpost Hnull Hid. unfold Routes.delete_post.
  destruct identity as [uid|]; [|simpl; auto].
  destruct (User_get st uid) as [cu|] eqn:Hcu; [|simpl; auto].
  destruct (User.is_active cu); simpl; [|auto].
  apply User_get_id in Hcu. destruct Hcu as [Hin Hcu].
  rewrite (delete_post_unauthorized st post_id (User.id cu) post Hpost Hnull).
  - simpl. auto.
  - apply Hid; [exact Hin | now rewrite Hcu].
Qed.

(** C10. For every existing post whose [author_id] is null,
    [delete_post] called with any non-zero requesting author id fails with
    "Unauthorized to delete this post" and leaves the store, and so the
    post, as it was.  The DELETE handler passes the id of the authenticated
    user: when that id is not zero the handler answers 403 (or 401 when the
    token names no active user) and the store is unchanged; in every store
    reachable from the empty database user ids are at least 1, so there the
    handler never deletes such a post. *)
Theorem delete_post_without_author_refused :
  forall (E : Externals) (st : Store) (post_id : Z) (post : Post.t),
    Post_get st post_id = Some post ->
    Post.author_id post = None ->
    (forall a, a <> 0 ->
       PostService.delete_post st post_id (Some a)
       = (st, Err (Message "Unauthorized to delete this post"))
       /\ Post_get (fst (PostService.delete_post st post_id (Some a))) post_id
          = Some post)
    /\ (forall uid, uid <> 0 ->
          fst (Routes.delete_post st (Some uid) post_id) = st
          /\ (snd (Routes.delete_post st (Some uid) post_id) = 401
              \/ snd (Routes.delete_post st (Some uid) post_id) = 403))
    /\ (reachable st ->
        forall identity,
          fst (Routes.delete_post st identity post_id) = st
          /\ (snd (Routes.delete_post st identity post_id) = 401
              \/ snd (Routes.delete_post st identity post_id) = 403)).
Proof.
  intros E st post_id post Hpost Hnull. split; [|split].
  - intros a Ha.
    rewrite (delete_post_unauthorized st post_id a post Hpost Hnull Ha).
    split; [reflexivity | exact Hpost].
  - intros uid Huid. apply (route_delete_refused st (Some uid) post_id post);
      try assumption.
    intros u _ Heq. inversion Heq; subst. exact Huid.
  - intros Hreach identity.
    apply (route_delete_refused st identity post_id post); try assumption.
    intros u Hin _. apply reachable_user_ids in Hreach.
    rewrite Forall_forall in Hreach. specialize (Hreach u Hin). lia.
Qed.

Lemma delete_post_without_author_refused_witness :
  PostService.delete_post with_orphan 3 (Some 1)
  = (with_orphan, Err (Message "Unauthorized to delete this post"))
  /\ fst (Routes.delete_post with_orphan (Some 1) 3) = with_orphan
  /\ fst (Routes.delete_post
            (@serve toy_externals empty_store
               (CreatePost 107 "Orphan" "A post without an author id."
                           "Nobody" None))
            (Some 1) 1)
     = @serve toy_externals empty_store
         (CreatePost 107 "Orphan" "A post without an author id."
                     "Nobody" None).
Proof.
  destruct (delete_post_without_author_refused toy_externals with_orphan 3
              orphan_post eq_refl eq_refl) as [Hservice [Hroute _]].
  split; [|split].
  - apply Hservice. discriminate.
  - apply Hroute. discriminate.
  - destruct (delete_post_without_author_refused toy_externals
                (@serve toy_externals empty_store
                   (CreatePost 107 "Orphan" "A post without an author id."
                               "Nobody" None))
                1
                (Post.mk 1 "Orphan" "A post without an author id." "Nobody"
                         None 107 107 true)
                eq_refl eq_refl) as [_ [_ Hreach]].
    apply Hreach. apply reachable_serve, reachable_empty.
Defined.

(** * Further properties of the services *)

(** ** Lists *)

Lemma find_filter_compat {A : Type} (f g : A -> bool) (l : list A) :
  (forall x, In x l -> f x = true -> g x = true) ->
  find f (filter g l) = find f l.
Proof.
  induction l as [|a l IH]; intros H; simpl; [reflexivity|].
  destruct (g a) eqn:Hg; simpl.
  - destruct (f a); [reflexivity|]. apply IH. intros x Hx. apply H. now right.
  - destruct (f a) eqn:Hf.
    + rewrite (H a (or_introl eq_refl) Hf) in Hg. discriminate.
    + apply IH. intros x Hx. apply H. now right.
Qed.

Lemma filter_filter_compat {A : Type} (f g : A -> bool) (l : list A) :
  (forall x, In x l -> f x = true -> g x = true) ->
  filter f (filter g l) = filter f l.
Proof.
  induction l as [|a l IH]; intros H; simpl; [reflexivity|].
  assert (IH' : filter f (filter g l) = filter f l)
    by (apply IH; intros x Hx; apply H; now right).
  destruct (g a) eqn:Hg; simpl.
  - destruct (f a); now rewrite IH'.
  - destruct (f a) eqn:Hf; [|exact IH'].
    rewrite (H a (or_introl eq_refl) Hf) in Hg. discriminate.
Qed.

Lemma find_app_some {A : Type} (f : A -> bool) (l l' : list A) (x : A) :
  find f l = Some x -> find f (l ++ l') = Some x.
Proof.
  induction l as [|a l IH]; simpl; [discriminate|].
  destruct (f a); [trivial | exact IH].
Qed.

Lemma find_app_skip {A : Type} (f : A -> bool) (l1 l2 : list A) (x : A) :
  f x = false -> find f (l1 ++ x :: l2) = find f (l1 ++ l2).
Proof.
  intros Hx. induction l1 as [|a l IH]; simpl; [now rewrite Hx|].
  destruct (f a); [reflexivity | exact IH].
Qed.

Lemma filter_all {A : Type} (f : A -> bool) (l : list A) :
  Forall (fun x => f x = true) l -> filter f l = l.
Proof.
  induction 1 as [|a l Ha _ IH]; simpl; [reflexivity|].
  now rewrite Ha, IH.
Qed.

Lemma Post_get_some_iff (st : Store) (q : Z) :
  (exists post, Post_get st q = Some post)
  <-> int64 q = true /\ In q (map Post.id (posts st)).
Proof.
  split.
  - intros [post H]. apply Post_get_find in H. destruct H as [Hrange H].
    apply find_some in H. destruct H as [Hin Hid].
    apply Z.eqb_eq in Hid. subst q. split; [exact Hrange | now apply in_map].
  - intros [Hrange H]. unfold Post_get. rewrite Hrange.
    apply in_map_iff in H. destruct H as [p [Hid Hin]].
    destruct (find (fun p0 => Post.id p0 =? q) (posts st)) as [post|] eqn:Hf;
      [now exists post|].
    apply (proj1 (find_none_iff _ _) Hf) in Hin.
    apply Z.eqb_neq in Hin. contradiction.
Qed.

Lemma Post_get_In (st : Store) (q : Z) (post : Post.t) :
  Post_get st q = Some post -> In q (map Post.id (posts st)).
Proof.
  intros H. apply (Post_get_some_iff st q). now exists post.
Qed.

(** ** Deleting a post *)

Lemma delete_check_false_iff (post : Post.t) (author_id : option Z) :
  Py.opt_int_truthy author_id
  && match author_id with
     | Some a => Py.opt_int_ne (Post.author_id post) a
     | None => false
     end = false
  <-> (author_id = None \/ author_id = Some 0
       \/ Post.author_id post = author_id).
Proof.
  destruct author_id as [a|]; simpl; [|tauto].
  destruct (Z.eqb_spec a 0) as [-> | Ha]; simpl; [tauto|].
  destruct (Post.author_id post) as [x|]; simpl.
  - destruct (Z.eqb_spec x a) as [-> | Hxa]; simpl.
    + tauto.
    + split; [discriminate|].
      intros [H | [H | H]]; inversion H; congruence.
  - split; [discriminate|].
    intros [H | [H | H]]; inversion H; congruence.
Qed.

(** X1. The outcomes of [delete_post]: it succeeds exactly when the post
    exists and the requesting author id is absent, zero, or the post's own
    author id.  A post id outside the signed 64-bit range gives the
    driver's [OverflowError]; a post id within it that no post has gives
    "Post not found"; an author id that is neither zero nor the post's
    gives "Unauthorized to delete this post".  These are all the failures,
    and each returns the store as it was. *)
Theorem delete_post_outcomes :
  forall (st : Store) (post_id : Z) (author_id : option Z),
    ((exists st', PostService.delete_post st post_id author_id = (st', Ok tt))
     <-> (exists post, Post_get st post_id = Some post
                       /\ (author_id = None \/ author_id = Some 0
                           \/ Post.author_id post = author_id)))
    /\ (int64 post_id = false ->
        PostService.delete_post st post_id author_id
        = (st, Err (Raised OverflowError)))
    /\ (int64 post_id = true -> Post_get st post_id = None ->
        PostService.delete_post st post_id author_id
        = (st, Err (Message "Post not found")))
    /\ (forall post a,
          Post_get st post_id = Some post -> author_id = Some a ->
          a <> 0 -> Post.author_id post <> Some a ->
          PostService.delete_post st post_id author_id
          = (st, Err (Message "Unauthorized to delete this post")))
    /\ (forall st' f,
          PostService.delete_post st post_id author_id = (st', Err f) ->
          st' = st
          /\ ((f = Raised OverflowError /\ int64 post_id = false)
              \/ (f = Message "Post not found"
                  /\ int64 post_id = true /\ Post_get st post_id = None)
              \/ (f = Message "Unauthorized to delete this post"
                  /\ exists post, Post_get st post_id = Some post))).
Proof.
  intros st post_id author_id. unfold PostService.delete_post.
  destruct (int64 post_id) eqn:Hrange.
  - rewrite (bind_none _ Hrange).
    destruct (Post_get st post_id) as [post|].
    + pose proof (delete_check_false_iff post author_id) as Hiff.
      destruct (Py.opt_int_truthy author_id && _) eqn:Hcheck.
      * split; [|split; [|split; [|split]]]; try discriminate.
        -- split; [intros [st' H]; discriminate|].
           intros [p [Hp Hauth]]. inversion Hp; subst p.
           apply Hiff in Hauth. discriminate.
        -- reflexivity.
        -- intros st' f H. inversion H; subst. split; [reflexivity|].
           right; right. split; [reflexivity | now exists post].
      * split; [|split; [|split; [|split]]]; try discriminate.
        -- split; [|intros _; eexists; reflexivity].
           intros _. exists post. split; [reflexivity | now apply Hiff].
        -- intros p a Hp -> Ha Hne. inversion Hp; subst p.
           destruct (proj1 Hiff eq_refl) as [H | [H | H]];
             [discriminate | inversion H; contradiction | contradiction].
    + split; [|split; [|split; [|split]]]; try discriminate.
      * split; [intros [st' H]; discriminate
               | intros [p [Hp _]]; discriminate].
      * reflexivity.
      * intros st' f H. inversion H; subst. split; [reflexivity|].
        right; left. auto.
  - rewrite (bind_overflow _ Hrange).
    assert (Hnone : Post_get st post_id = None)
      by (unfold Post_get; now rewrite Hrange).
    split; [|split; [|split; [|split]]]; try discriminate.
    + split; [intros [st' H]; discriminate|].
      intros [p [Hp _]]. congruence.
    + reflexivity.
    + intros p a Hp. congruence.
    + intros st' f H. inversion H; subst. split; [reflexivity|].
      left. auto.
Qed.

(** X2. A successful [delete_post] cascades: afterwards the post is not
    found, no vote and no comment refers to it, and the users, every other
    post and the votes and comments of every other post are as before. *)
Theorem delete_post_cascades :
  forall (st st' : Store) (post_id : Z) (author_id : option Z),
    PostService.delete_post st post_id author_id = (st', Ok tt) ->
    PostService.get_post_by_id st' post_id = Err (Message "Post not found")
    /\ (forall v, In v (votes st') -> Vote.post_id v <> post_id)
    /\ (forall c, In c (comments st') -> Comment.post_id c <> post_id)
    /\ upvotes st' post_id = 0 /\ downvotes st' post_id = 0
    /\ comment_count st' post_id = 0
    /\ users st' = users st
    /\ (forall q, q <> post_id ->
          Post_get st' q = Post_get st q
          /\ upvotes st' q = upvotes st q
          /\ downvotes st' q = downvotes st q
          /\ comment_count st' q = comment_count st q)
    /\ (forall v, In v (votes st) -> Vote.post_id v <> post_id ->
                  In v (votes st'))
    /\ (forall c, In c (comments st) -> Comment.post_id c <> post_id ->
                  In c (comments st')).
Proof.
  intros st st' post_id author_id H.
  unfold PostService.delete_post in H.
  destruct (int64 post_id) eqn:Hrange;
    [rewrite (bind_none _ Hrange) in H
    |rewrite (bind_overflow _ Hrange) in H; discriminate].
  destruct (Post_get st post_id) as [post|] eqn:Hpost; [|discriminate].
  pose proof (Post_get_id _ _ _ Hpost) as Hid.
  match type of H with
  | (if ?c then _ else _) = _ => destruct c; [discriminate|]
  end.
  inversion H; subst st'; clear H.
  unfold PostService.delete_cascade. rewrite Hid.
  assert (Hv : forall v, In v (filter (fun v => negb (Vote.post_id v =? post_id))
                                      (votes st)) -> Vote.post_id v <> post_id).
  { intros v Hin. apply filter_In in Hin. destruct Hin as [_ Hne].
    apply negb_true_iff, Z.eqb_neq in Hne. exact Hne. }
  assert (Hc : forall c, In c (filter (fun c => negb (Comment.post_id c =? post_id))
                                      (comments st)) ->
                         Comment.post_id c <> post_id).
  { intros c Hin. apply filter_In in Hin. destruct Hin as [_ Hne].
    apply negb_true_iff, Z.eqb_neq in Hne. exact Hne. }
  split.
  { unfold PostService.get_post_by_id, Post_get; simpl.
    rewrite (bind_none _ Hrange), Hrange.
    replace (find _ _) with (@None Post.t); [reflexivity|].
    symmetry. apply find_none_iff. intros x Hx.
    apply filter_In in Hx. destruct Hx as [_ Hne].
    now apply negb_true_iff in Hne. }
  split; [exact Hv|]. split; [exact Hc|].
  split; [|split; [|split; [|split; [reflexivity|split; [|split]]]]].
  - unfold upvotes, count_votes; simpl. rewrite filter_none; [reflexivity|].
    intros v Hin. apply Hv in Hin. apply Z.eqb_neq in Hin. now rewrite Hin.
  - unfold downvotes, count_votes; simpl. rewrite filter_none; [reflexivity|].
    intros v Hin. apply Hv in Hin. apply Z.eqb_neq in Hin. now rewrite Hin.
  - unfold comment_count; simpl. rewrite filter_none; [reflexivity|].
    intros c Hin. apply Hc in Hin. now apply Z.eqb_neq in Hin.
  - intros q Hq.
    assert (Hqne : forall x : Z, (x =? q) = true -> negb (x =? post_id) = true).
    { intros x Hx. apply Z.eqb_eq in Hx. subst x.
      apply negb_true_iff. now apply Z.eqb_neq. }
    split; [|split; [|split]].
    + unfold Post_get; simpl. destruct (int64 q); [|reflexivity].
      apply find_filter_compat.
      intros x _ Hx. now apply Hqne.
    + unfold upvotes, count_votes; simpl. rewrite filter_filter_compat;
        [reflexivity|].
      intros x _ Hx. apply andb_true_iff in Hx. now apply Hqne.
    + unfold downvotes, count_votes; simpl. rewrite filter_filter_compat;
        [reflexivity|].
      intros x _ Hx. apply andb_true_iff in Hx. now apply Hqne.
    + unfold comment_count; simpl. rewrite filter_filter_compat;
        [reflexivity|].
      intros x _ Hx. now apply Hqne.
  - intros v Hin Hne. simpl. apply filter_In. split; [exact Hin|].
    apply negb_true_iff. now apply Z.eqb_neq.
  - intros c Hin Hne. simpl. apply filter_In. split; [exact Hin|].
    apply negb_true_iff. now apply Z.eqb_neq.
Qed.

Lemma delete_post_outcomes_witness :
  (exists st', PostService.delete_post one_post 1 (Some 0) = (st', Ok tt))
  /\ (exists st', PostService.delete_post one_post 1 (Some 1) = (st', Ok tt))
  /\ PostService.delete_post one_post 9223372036854775808 (Some 1)
     = (one_post, Err (Raised OverflowError))
  /\ PostService.delete_post one_post 2 (Some 1)
     = (one_post, Err (Message "Post not found"))
  /\ PostService.delete_post one_post 1 (Some 2)
     = (one_post, Err (Message "Unauthorized to delete this post")).
Proof.
  split; [|split; [|split; [|split]]].
  - apply (proj1 (delete_post_outcomes one_post 1 (Some 0))).
    exists first_post. split; [reflexivity | right; now left].
  - apply (proj1 (delete_post_outcomes one_post 1 (Some 1))).
    exists first_post. split; [reflexivity | right; now right].
  - apply (proj1 (proj2 (delete_post_outcomes
                           one_post 9223372036854775808 (Some 1)))).
    reflexivity.
  - apply (proj1 (proj2 (proj2 (delete_post_outcomes one_post 2 (Some 1)))));
      reflexivity.
  - apply (proj1 (proj2 (proj2 (proj2
             (delete_post_outcomes one_post 1 (Some 2)))))
             first_post 2 eq_refl eq_refl); discriminate.
Defined.

Lemma delete_post_cascades_witness :
  PostService.get_post_by_id
    (fst (PostService.delete_post one_post_upvoted 1 (Some 1))) 1
  = Err (Message "Post not found")
  /\ forall v,
       In v (votes (fst (PostService.delete_post one_post_upvoted 1 (Some 1)))) ->
       Vote.post_id v <> 1.
Proof.
  destruct (delete_post_cascades one_post_upvoted
              (fst (PostService.delete_post one_post_upvoted 1 (Some 1)))
              1 (Some 1) eq_refl) as [Hgone [Hvotes _]].
  split; [exact Hgone | exact Hvotes].
Defined.

(** ** Creating a post *)

Lemma fresh_id_not_in (ids : list Z) : ~ In (fresh_id ids) ids.
Proof.
  intros H. apply fresh_id_gt in H. lia.
Qed.

(** X3. [create_post] succeeds exactly when the author id is absent or
    within the signed 64-bit range; otherwise it fails with the driver's
    [OverflowError] and stores nothing.  On success the new post gets an id
    that no row of [posts] has, is published, carries the stripped title,
    body and author name, the given author id and the time of the call,
    and is returned by [get_post_by_id] under its id when that id is
    within the range; every post that could be looked up before is looked
    up unchanged, and the other tables are untouched. *)
Theorem create_post_then_get :
  forall (st : Store) (now : Z) (title body author : string)
         (author_id : option Z),
    ((forall a, author_id = Some a -> int64 a = true) ->
     exists st' post,
       PostService.create_post st now title body author author_id
       = (st', Ok post)
       /\ posts st' = posts st ++ [post]
       /\ ~ In (Post.id post) (map Post.id (posts st))
       /\ (int64 (Post.id post) = true ->
           PostService.get_post_by_id st' (Post.id post) = Ok post)
       /\ Post.title post = Py.strip title
       /\ Post.body post = Py.strip body
       /\ Post.author post = Py.strip author
       /\ Post.author_id post = author_id
       /\ Post.published_at post = now /\ Post.updated_at post = now
       /\ Post.is_published post = true
       /\ (forall q row, Post_get st q = Some row -> Post_get st' q = Some row)
       /\ users st' = users st /\ votes st' = votes st
       /\ comments st' = comments st)
    /\ (forall a, author_id = Some a -> int64 a = false ->
        PostService.create_post st now title body author author_id
        = (st, Err (Raised OverflowError))).
Proof.
  intros st now title body author author_id.
  unfold PostService.create_post. split.
  - intros Hrange.
    assert (Hbind : bind_opt author_id = None).
    { destruct author_id as [a|]; [|reflexivity].
      simpl. apply bind_none. now apply Hrange. }
    rewrite Hbind.
    eexists. eexists. split; [reflexivity|]. simpl.
    split; [reflexivity|].
    split; [apply fresh_id_not_in|].
    split.
    { intros Hid. unfold PostService.get_post_by_id, Post_get; simpl.
      rewrite (bind_none _ Hid), Hid.
      rewrite find_app_none.
      - simpl. now rewrite Z.eqb_refl.
      - apply find_none_iff. intros x Hx.
        apply Z.eqb_neq. intros Heq.
        apply (fresh_id_not_in (map Post.id (posts st))).
        rewrite <- Heq. now apply in_map. }
    repeat split.
    intros q row Hq. unfold Post_get in *; simpl.
    destruct (int64 q); [|discriminate]. now apply find_app_some.
  - intros a -> Ha. simpl. now rewrite (bind_overflow _ Ha).
Qed.

Lemma create_post_then_get_witness :
  (exists st' post,
      PostService.create_post one_post 130 " Second " "A body of 10." " Ann "
                              (Some 1)
      = (st', Ok post)
      /\ Post.id post = 2
      /\ Post.title post = "Second"%string
      /\ PostService.get_post_by_id st' 2 = Ok post
      /\ Post_get st' 1 = Some first_post)
  /\ PostService.create_post one_post 130 "Second" "A body of 10." "Ann"
                             (Some 9223372036854775808)
     = (one_post, Err (Raised OverflowError)).
Proof.
  split.
  - destruct (proj1 (create_post_then_get one_post 130 " Second "
                       "A body of 10." " Ann " (Some 1)))
      as [st' [post [Heq [Hposts [_ [Hget [Htitle [_ [_ [_ [_ [_ [_ [Hold _]]]]]]]]]]]]]].
    { intros a Ha. inversion Ha. reflexivity. }
    assert (Hid : Post.id post = 2) by (now inversion Heq).
    exists st', post. split; [exact Heq|]. split; [exact Hid|].
    split; [exact Htitle|]. split.
    + rewrite <- Hid. apply Hget. now rewrite Hid.
    + now apply Hold.
  - apply (proj2 (create_post_then_get one_post 130 "Second"
                    "A body of 10." "Ann" (Some 9223372036854775808))
                 9223372036854775808); reflexivity.
Defined.

(** ** Updating a post: what it leaves alone *)

Lemma find_map_other (posts : list Post.t) (post post' : Post.t) (q : Z) :
  Post.id post' = Post.id post ->
  q <> Post.id post ->
  find (fun p => Post.id p =? q)
       (map (fun p => if Post.id p =? Post.id post then post' else p) posts)
  = find (fun p => Post.id p =? q) posts.
Proof.
  intros Hid Hq. induction posts as [|a l IH]; simpl; [reflexivity|].
  destruct (Z.eqb_spec (Post.id a) (Post.id post)) as [Ha | Ha].
  - rewrite Hid, Ha.
    destruct (Z.eqb_spec (Post.id post) q) as [Hc | _]; [congruence|].
    exact IH.
  - destruct (Post.id a =? q); [reflexivity | exact IH].
Qed.

(** X4. [update_post] on a post id outside the signed 64-bit range fails
    with the driver's [OverflowError], and on an id within the range that
    no post has with "Post not found"; both return the store as it was.
    In every case it leaves the users, votes and comments untouched, keeps
    the ids of the posts in their order, and leaves every post with
    another id as it was. *)
Theorem update_post_frame :
  forall (st : Store) (now post_id : Z) (title body : option string)
         (author_id : option Z),
    let st' := fst (PostService.update_post st now post_id title body
                      author_id) in
    (int64 post_id = false ->
     PostService.update_post st now post_id title body author_id
     = (st, Err (Raised OverflowError)))
    /\ (int64 post_id = true -> Post_get st post_id = None ->
        PostService.update_post st now post_id title body author_id
        = (st, Err (Message "Post not found")))
    /\ users st' = users st /\ votes st' = votes st
    /\ comments st' = comments st
    /\ map Post.id (posts st') = map Post.id (posts st)
    /\ (forall q, q <> post_id -> Post_get st' q = Post_get st q).
Proof.
  intros st now post_id title body author_id st'.
  unfold st', PostService.update_post.
  destruct (int64 post_id) eqn:Hrange;
    [rewrite (bind_none _ Hrange)
    |rewrite (bind_overflow _ Hrange); simpl; repeat split; discriminate].
  destruct (Post_get st post_id) as [post|] eqn:Hpost; simpl.
  - pose proof (Post_get_id _ _ _ Hpost) as Hid.
    split; [discriminate|]. split; [discriminate|]. repeat split.
    + rewrite map_map. apply map_ext_in. intros x _.
      destruct (Z.eqb_spec (Post.id x) (Post.id post)) as [H | H];
        [now rewrite H | reflexivity].
    + intros q Hq. unfold Post_get; simpl.
      destruct (int64 q); [|reflexivity].
      apply find_map_other; [reflexivity | congruence].
  - repeat split. discriminate.
Qed.

Lemma update_post_frame_witness :
  PostService.update_post one_post 200 (-9223372036854775809)
                          (Some "X"%string) None None
  = (one_post, Err (Raised OverflowError))
  /\ PostService.update_post one_post 200 7 (Some "X"%string) None None
     = (one_post, Err (Message "Post not found"))
  /\ Post_get (fst (PostService.update_post with_draft 200 2
                      (Some "Ready"%string) None None)) 1
     = Post_get with_draft 1.
Proof.
  split; [|split].
  - apply (update_post_frame one_post 200 (-9223372036854775809)
             (Some "X"%string) None None).
    reflexivity.
  - apply (update_post_frame one_post 200 7 (Some "X"%string) None None);
      reflexivity.
  - apply (update_post_frame with_draft 200 2 (Some "Ready"%string) None None).
    discriminate.
Defined.

(** ** What each write does to the tables *)

Lemma existsb_false_not_in {A B : Type} (key : A -> B) (eqb : B -> B -> bool)
      (x : B) (l : list A) :
  (forall a b, eqb a b = true <-> a = b) ->
  existsb (fun w => eqb (key w) x) l = false -> ~ In x (map key l).
Proof.
  intros Heqb Hex Hin. apply in_map_iff in Hin. destruct Hin as [w [Hk Hw]].
  assert (existsb (fun w => eqb (key w) x) l = true).
  { apply existsb_exists. exists w. split; [exact Hw | now apply Heqb]. }
  congruence.
Qed.

Lemma create_user_effect {E : Externals} (st : Store) (now : Z)
      (salt username email password : string) :
  let st' := fst (UserService.create_user st now salt username email
                    password) in
  posts st' = posts st /\ votes st' = votes st /\ comments st' = comments st
  /\ (users st' = users st
      \/ exists u, users st' = users st ++ [u]
                   /\ User.id u = fresh_id (map User.id (users st))
                   /\ ~ In (User.username u) (map User.username (users st))
                   /\ ~ In (User.email u) (map User.email (users st))).
Proof.
  unfold UserService.create_user, UserService.insert_user.
  destruct (bcrypt_generate salt password) as [e | h]; simpl; [tauto|].
  destruct (existsb _ (users st)) eqn:Hname; simpl.
  { repeat match goal with
           | |- context [if ?c then _ else _] => destruct c
           end; simpl; tauto. }
  destruct (existsb (fun w => (User.email w =? _)%string) (users st))
    eqn:Hmail; simpl; [tauto|].
  repeat split. right. eexists. split; [reflexivity|]. simpl.
  split; [reflexivity|]. split.
  - apply (existsb_false_not_in User.username String.eqb);
      [apply String.eqb_eq | exact Hname].
  - apply (existsb_false_not_in User.email String.eqb);
      [apply String.eqb_eq | exact Hmail].
Qed.

Lemma create_post_effect (st : Store) (now : Z) (title body author : string)
      (author_id : option Z) :
  let st' := fst (PostService.create_post st now title body author
                    author_id) in
  users st' = users st /\ votes st' = votes st /\ comments st' = comments st
  /\ (posts st' = posts st
      \/ exists post, posts st' = posts st ++ [post]
                      /\ Post.id post = fresh_id (map Post.id (posts st))).
Proof.
  unfold PostService.create_post.
  destruct (bind_opt author_id); simpl; [tauto|].
  repeat split. right. eexists. split; reflexivity.
Qed.

Lemma update_post_effect (st : Store) (now post_id : Z)
      (title body : option string) (author_id : option Z) :
  let st' := fst (PostService.update_post st now post_id title body
                    author_id) in
  users st' = users st /\ votes st' = votes st /\ comments st' = comments st
  /\ map Post.id (posts st') = map Post.id (posts st).
Proof.
  unfold PostService.update_post.
  destruct (bind post_id); simpl; [tauto|].
  destruct (Post_get st post_id) as [post|]; simpl; [|tauto].
  repeat split. rewrite map_map. apply map_ext_in. intros x _.
  destruct (Z.eqb_spec (Post.id x) (Post.id post)) as [H | H];
    [now rewrite H | reflexivity].
Qed.

Lemma delete_post_effect (st : Store) (post_id : Z) (author_id : option Z) :
  fst (PostService.delete_post st post_id author_id) = st
  \/ exists post, Post_get st post_id = Some post
                  /\ fst (PostService.delete_post st post_id author_id)
                     = PostService.delete_cascade st post.
Proof.
  unfold PostService.delete_post.
  destruct (bind post_id); [now left|].
  destruct (Post_get st post_id) as [post|]; [|now left].
  match goal with
  | |- context [if ?c then _ else _] => destruct c
  end; [now left | right; now exists post].
Qed.

Lemma create_comment_effect (st : Store) (now : Z) (content : string)
      (author_id post_id : Z) :
  let st' := fst (CommentService.create_comment st now content author_id
                    post_id) in
  users st' = users st /\ posts st' = posts st /\ votes st' = votes st
  /\ (comments st' = comments st
      \/ (In post_id (map Post.id (posts st))
          /\ int64 post_id = true
          /\ comments st'
             = comments st
               ++ [Comment.mk (fresh_id (map Comment.id (comments st)))
                              (Py.strip content) author_id post_id
                              now now true])).
Proof.
  unfold CommentService.create_comment.
  destruct (bind post_id); simpl; [tauto|].
  destruct (Post_get st post_id) as [post|] eqn:Hpost; simpl; [|tauto].
  destruct (bind author_id); simpl; [tauto|].
  repeat split. right. split; [now apply (Post_get_In _ _ post)|].
  split; [|reflexivity]. now apply (Post_get_find _ _ _ Hpost).
Qed.

Lemma vote_post_effect (st : Store) (now u p : Z) (b : bool) :
  let st' := fst (VoteService.vote_post st now u p b) in
  users st' = users st /\ posts st' = posts st /\ comments st' = comments st
  /\ (votes st' = votes st
      \/ (exists v, votes st'
                    = filter (fun w => negb (Vote.id w =? Vote.id v)) (votes st))
      \/ (exists v, votes st'
                    = map (fun w => if Vote.id w =? Vote.id v
                                    then Vote.set_vote_type w b else w)
                          (votes st))
      \/ (In p (map Post.id (posts st))
          /\ int64 p = true
          /\ votes st'
             = votes st
               ++ [Vote.mk (fresh_id (map Vote.id (votes st))) u p b now])).
Proof.
  destruct (Post_get st p) as [post|] eqn:Hpost.
  - cbv zeta. rewrite (vote_post_store _ _ _ _ _ _ Hpost).
    destruct (Vote_first st u p) as [v|].
    + destruct (Bool.eqb (Vote.vote_type v) b); simpl; repeat split.
      * right; left. now exists v.
      * right; right; left. now exists v.
    + simpl. repeat split. right; right; right.
      split; [now apply (Post_get_In _ _ post)|].
      split; [|reflexivity]. now apply (Post_get_find _ _ _ Hpost).
  - cbv zeta. rewrite vote_post_not_found by assumption. tauto.
Qed.

(** ** Integrity of every reachable store *)

Lemma serve_keys_unique {E : Externals} (st : Store) (r : request) :
  keys_unique st -> keys_unique (serve st r).
Proof.
  intros [Hu [Hp [Hv Hc]]]. unfold keys_unique. destruct r; simpl.
  - destruct (create_user_effect st now salt username email password)
      as [-> [-> [-> Husers]]].
    repeat split; try assumption.
    destruct Husers as [-> | [u [-> [Hid _]]]]; [assumption|].
    rewrite map_app. simpl. apply NoDup_snoc; [assumption|].
    rewrite Hid. apply fresh_id_not_in.
  - destruct (create_post_effect st now title body author author_id)
      as [-> [-> [-> Hposts]]].
    repeat split; try assumption.
    destruct Hposts as [-> | [post [-> Hid]]]; [assumption|].
    rewrite map_app. simpl. apply NoDup_snoc; [assumption|].
    rewrite Hid. apply fresh_id_not_in.
  - destruct (update_post_effect st now post_id title body author_id)
      as [-> [-> [-> ->]]].
    repeat split; assumption.
  - destruct (delete_post_effect st post_id author_id)
      as [-> | [post [_ ->]]]; [repeat split; assumption|].
    simpl. repeat split; try assumption; now apply NoDup_map_filter.
  - destruct (vote_post_effect st now user_id post_id vote_type)
      as [-> [-> [-> Hvotes]]].
    repeat split; try assumption.
    destruct Hvotes as [-> | [[v ->] | [[v ->] | [_ [_ ->]]]]].
    + assumption.
    + now apply NoDup_map_filter.
    + rewrite map_map. rewrite (map_ext _ Vote.id); [assumption|].
      intros w. now destruct (Vote.id w =? Vote.id v).
    + rewrite map_app. simpl. apply NoDup_snoc; [assumption|].
      apply fresh_id_not_in.
  - destruct (create_comment_effect st now content author_id post_id)
      as [-> [-> [-> Hcomments]]].
    repeat split; try assumption.
    destruct Hcomments as [-> | [_ [_ ->]]]; [assumption|].
    rewrite map_app. simpl. apply NoDup_snoc; [assumption|].
    apply fresh_id_not_in.
Qed.

(** X5. Primary keys: every write request keeps the ids of each table
    pairwise distinct, so in every store reachable from the empty database
    no two users, no two posts, no two votes and no two comments share an
    id. *)
Theorem keys_unique_invariant :
  forall (E : Externals),
    (forall st r, keys_unique st -> keys_unique (serve st r))
    /\ (forall st, reachable st -> keys_unique st).
Proof.
  intros E. split; [intros st r; apply serve_keys_unique|].
  intros st Hreach. induction Hreach as [|st r _ IH].
  - repeat split; constructor.
  - now apply serve_keys_unique.
Qed.

Lemma serve_users_unique {E : Externals} (st : Store) (r : request) :
  users_unique st -> users_unique (serve st r).
Proof.
  intros [Hn Hm]. unfold users_unique. destruct r; simpl.
  - destruct (create_user_effect st now salt username email password)
      as [_ [_ [_ Husers]]].
    destruct Husers as [-> | [u [-> [_ [Hname Hmail]]]]]; [split; assumption|].
    rewrite !map_app. simpl. split; now apply NoDup_snoc.
  - destruct (create_post_effect st now title body author author_id)
      as [-> _]. split; assumption.
  - destruct (update_post_effect st now post_id title body author_id)
      as [-> _]. split; assumption.
  - destruct (delete_post_effect st post_id author_id)
      as [-> | [post [_ ->]]]; split; assumption.
  - destruct (vote_post_effect st now user_id post_id vote_type)
      as [-> _]. split; assumption.
  - destruct (create_comment_effect st now content author_id post_id)
      as [-> _]. split; assumption.
Qed.

(** X6. The unique indexes of [users]: every write request keeps usernames
    pairwise distinct and e-mail addresses pairwise distinct, so they are
    in every store reachable from the empty database. *)
Theorem users_unique_invariant :
  forall (E : Externals),
    (forall st r, users_unique st -> users_unique (serve st r))
    /\ (forall st, reachable st -> users_unique st).
Proof.
  intros E. split; [intros st r; apply serve_users_unique|].
  intros st Hreach. induction Hreach as [|st r _ IH].
  - split; constructor.
  - now apply serve_users_unique.
Qed.

Lemma serve_no_orphans {E : Externals} (st : Store) (r : request) :
  no_orphans st -> no_orphans (serve st r).
Proof.
  intros [Hv Hc]. unfold no_orphans. destruct r; simpl.
  - destruct (create_user_effect st now salt username email password)
      as [-> [-> [-> _]]]. split; assumption.
  - destruct (create_post_effect st now title body author author_id)
      as [_ [-> [-> Hposts]]].
    destruct Hposts as [-> | [post [-> _]]]; [split; assumption|].
    split; intros x Hx; rewrite map_app, in_app_iff; left; auto.
  - destruct (update_post_effect st now post_id title body author_id)
      as [_ [-> [-> ->]]]. split; assumption.
  - destruct (delete_post_effect st post_id author_id)
      as [-> | [post [_ ->]]]; [split; assumption|].
    simpl. split.
    + intros v Hin. apply filter_In in Hin. destruct Hin as [Hin Hne].
      apply Hv in Hin. apply in_map_iff in Hin. destruct Hin as [p [Hp Hin]].
      apply in_map_iff. exists p. split; [exact Hp|].
      apply filter_In. split; [exact Hin | now rewrite Hp].
    + intros c Hin. apply filter_In in Hin. destruct Hin as [Hin Hne].
      apply Hc in Hin. apply in_map_iff in Hin. destruct Hin as [p [Hp Hin]].
      apply in_map_iff. exists p. split; [exact Hp|].
      apply filter_In. split; [exact Hin | now rewrite Hp].
  - destruct (vote_post_effect st now user_id post_id vote_type)
      as [_ [-> [-> Hvotes]]].
    split; [|assumption].
    destruct Hvotes as [-> | [[v ->] | [[v ->] | [Hpost [_ ->]]]]].
    + assumption.
    + intros w Hw. apply filter_In in Hw. now apply Hv.
    + intros w Hw. apply in_map_iff in Hw. destruct Hw as [x [<- Hx]].
      destruct (Vote.id x =? Vote.id v); simpl; now apply Hv.
    + intros w Hw. apply in_app_iff in Hw.
      destruct Hw as [Hw | [<- | []]]; [now apply Hv | exact Hpost].
  - destruct (create_comment_effect st now content author_id post_id)
      as [_ [-> [-> Hcomments]]].
    split; [assumption|].
    destruct Hcomments as [-> | [Hpost [_ ->]]]; [assumption|].
    intros c Hin. apply in_app_iff in Hin.
    destruct Hin as [Hin | [<- | []]]; [now apply Hc | exact Hpost].
Qed.

Lemma serve_refs_bound {E : Externals} (st : Store) (r : request) :
  refs_bound st -> refs_bound (serve st r).
Proof.
  intros [Hv Hc]. unfold refs_bound. destruct r; simpl.
  - destruct (create_user_effect st now salt username email password)
      as [_ [-> [-> _]]]. split; assumption.
  - destruct (create_post_effect st now title body author author_id)
      as [_ [-> [-> _]]]. split; assumption.
  - destruct (update_post_effect st now post_id title body author_id)
      as [_ [-> [-> _]]]. split; assumption.
  - destruct (delete_post_effect st post_id author_id)
      as [-> | [post [_ ->]]]; [split; assumption|].
    simpl. split; intros x Hin; apply filter_In in Hin; [apply Hv | apply Hc];
      tauto.
  - destruct (vote_post_effect st now user_id post_id vote_type)
      as [_ [_ [-> Hvotes]]].
    split; [|assumption].
    destruct Hvotes as [-> | [[v ->] | [[v ->] | [_ [Hrange ->]]]]].
    + assumption.
    + intros w Hw. apply filter_In in Hw. now apply Hv.
    + intros w Hw. apply in_map_iff in Hw. destruct Hw as [x [<- Hx]].
      destruct (Vote.id x =? Vote.id v); simpl; now apply Hv.
    + intros w Hw. apply in_app_iff in Hw.
      destruct Hw as [Hw | [<- | []]]; [now apply Hv | exact Hrange].
  - destruct (create_comment_effect st now content author_id post_id)
      as [_ [_ [-> Hcomments]]].
    split; [assumption|].
    destruct Hcomments as [-> | [_ [Hrange ->]]]; [assumption|].
    intros c Hin. apply in_app_iff in Hin.
    destruct Hin as [Hin | [<- | []]]; [now apply Hc | exact Hrange].
Qed.

(** X7. No orphans: every write request keeps each vote and each comment
    attached to an existing post (votes and comments are only created on
    an existing post, and deleting a post deletes them with it), so in
    every store reachable from the empty database [get_post_by_id] finds
    the post of every vote and of every comment. *)
Theorem no_orphans_invariant :
  forall (E : Externals),
    (forall st r, no_orphans st -> no_orphans (serve st r))
    /\ (forall st, reachable st ->
          (forall v, In v (votes st) ->
             exists post,
               PostService.get_post_by_id st (Vote.post_id v) = Ok post)
          /\ (forall c, In c (comments st) ->
                exists post,
                  PostService.get_post_by_id st (Comment.post_id c) = Ok post)).
Proof.
  intros E. split; [intros st r; apply serve_no_orphans|].
  intros st Hreach.
  assert (H : no_orphans st /\ refs_bound st).
  { induction Hreach as [|st r _ [IH IH']].
    - repeat split; intros x [].
    - split; [now apply serve_no_orphans | now apply serve_refs_bound]. }
  destruct H as [[Hv Hc] [Hvb Hcb]]. unfold PostService.get_post_by_id. split.
  - intros v Hin. rewrite (bind_none _ (Hvb v Hin)).
    destruct (proj2 (Post_get_some_iff st (Vote.post_id v))) as [post ->];
      [auto | now exists post].
  - intros c Hin. rewrite (bind_none _ (Hcb c Hin)).
    destruct (proj2 (Post_get_some_iff st (Comment.post_id c))) as [post ->];
      [auto | now exists post].
Qed.

Lemma reachable_serve_all {E : Externals} (rs : list request) (st : Store) :
  reachable st -> reachable (serve_all st rs).
Proof.
  revert st. induction rs as [|r rs IH]; intros st H; [exact H|].
  apply IH. now apply reachable_serve.
Qed.

Lemma keys_unique_invariant_witness :
  keys_unique (@serve_all toy_externals empty_store session).
Proof.
  apply (proj2 (keys_unique_invariant toy_externals)).
  apply reachable_serve_all, reachable_empty.
Defined.

Lemma users_unique_invariant_witness :
  users_unique (@serve_all toy_externals empty_store session).
Proof.
  apply (proj2 (users_unique_invariant toy_externals)).
  apply reachable_serve_all, reachable_empty.
Defined.

Lemma no_orphans_invariant_witness :
  exists post,
    PostService.get_post_by_id
      (@serve_all toy_externals empty_store session)
      (Vote.post_id (Vote.mk 1 1 1 true 110))
    = Ok post.
Proof.
  apply (proj1 (proj2 (no_orphans_invariant toy_externals)
                      (@serve_all toy_externals empty_store session)
                      (reachable_serve_all session empty_store
                                           reachable_empty))).
  left. reflexivity.
Defined.

(** ** Registration *)

(** X8. The outcomes of [create_user], with the username and the e-mail
    address stripped.  When bcrypt raises on the password, the error is
    that exception and nothing is stored.  When it returns a hash: a taken
    username with a free e-mail address gives "Username already exists"; a
    free username with a taken e-mail address gives "Email already
    exists"; with both taken it is the one or the other, by the index the
    database reports; all three leave the store unchanged.  With both free
    the user is appended, active, with that hash, under an id no user has,
    and [get_user_by_id] returns it under that id when the id is within
    the signed 64-bit range. *)
Theorem create_user_outcomes :
  forall (E : Externals) (st : Store) (now : Z)
         (salt username email password : string),
    (forall e, bcrypt_generate salt password = inl e ->
               UserService.create_user st now salt username email password
               = (st, Err (Raised e)))
    /\ (forall h, bcrypt_generate salt password = inr h ->
          (In (Py.strip username) (map User.username (users st)) ->
           ~ In (Py.strip email) (map User.email (users st)) ->
           UserService.create_user st now salt username email password
           = (st, Err (Message "Username already exists")))
          /\ (~ In (Py.strip username) (map User.username (users st)) ->
              In (Py.strip email) (map User.email (users st)) ->
              UserService.create_user st now salt username email password
              = (st, Err (Message "Email already exists")))
          /\ (In (Py.strip username) (map User.username (users st)) ->
              In (Py.strip email) (map User.email (users st)) ->
              UserService.create_user st now salt username email password
              = (st, Err (Message (if email_index_first
                                   then "Email already exists"
                                   else "Username already exists"))))
          /\ (~ In (Py.strip username) (map User.username (users st)) ->
              ~ In (Py.strip email) (map User.email (users st)) ->
              exists user,
                UserService.create_user st now salt username email password
                = (set_users st (users st ++ [user]), Ok user)
                /\ User.username user = Py.strip username
                /\ User.email user = Py.strip email
                /\ User.password_hash user = h
                /\ User.is_active user = true
                /\ User.created_at user = now
                /\ ~ In (User.id user) (map User.id (users st))
                /\ (int64 (User.id user) = true ->
                    UserService.get_user_by_id
                      (set_users st (users st ++ [user])) (User.id user)
                    = Ok user))).
Proof.
  intros E st now salt username email password.
  assert (Hex : forall (key : User.t -> string) x,
            existsb (fun w => (key w =? x)%string) (users st) = true
            <-> In x (map key (users st))).
  { intros key x. rewrite existsb_exists, in_map_iff.
    split; intros [w [H1 H2]]; exists w.
    - apply String.eqb_eq in H2. tauto.
    - split; [tauto | now apply String.eqb_eq]. }
  assert (Hnex : forall (key : User.t -> string) x,
            ~ In x (map key (users st)) ->
            existsb (fun w => (key w =? x)%string) (users st) = false).
  { intros key x Hx.
    destruct (existsb (fun w => (key w =? x)%string) (users st)) eqn:H;
      [|reflexivity].
    apply Hex in H. contradiction. }
  unfold UserService.create_user, UserService.insert_user.
  split; [intros e ->; reflexivity|].
  intros h ->. cbn [User.username User.email].
  split; [|split; [|split]].
  - intros Hname Hmail.
    apply (Hex User.username) in Hname. apply (Hnex User.email) in Hmail.
    rewrite Hname, Hmail. reflexivity.
  - intros Hname Hmail.
    apply (Hnex User.username) in Hname. apply (Hex User.email) in Hmail.
    rewrite Hname, Hmail. reflexivity.
  - intros Hname Hmail.
    apply (Hex User.username) in Hname. apply (Hex User.email) in Hmail.
    rewrite Hname, Hmail. now destruct email_index_first.
  - intros Hname Hmail.
    apply (Hnex User.username) in Hname. apply (Hnex User.email) in Hmail.
    rewrite Hname, Hmail.
    eexists. split; [reflexivity|]. simpl. repeat split.
    + apply fresh_id_not_in.
    + intros Hid. unfold UserService.get_user_by_id, User_get; simpl.
      rewrite (bind_none _ Hid), Hid.
      rewrite find_app_none.
      * simpl. now rewrite Z.eqb_refl.
      * apply find_none_iff. intros x Hx. apply Z.eqb_neq. intros Heq.
        apply (fresh_id_not_in (map User.id (users st))).
        rewrite <- Heq. now apply in_map.
Qed.

Lemma create_user_outcomes_witness :
  @UserService.create_user toy_externals one_post 95 "s" " bob "
     "bob@example.com" "pw"
  = (set_users one_post
       [ann; User.mk 2 "bob" "bob@example.com" "s$pw" 95 true],
     Ok (User.mk 2 "bob" "bob@example.com" "s$pw" 95 true))
  /\ @UserService.create_user toy_externals one_post 95 "s" " ann " "x@y.z" "pw"
     = (one_post, Err (Message "Username already exists"))
  /\ @UserService.create_user toy_externals one_post 95 "s" "bob"
       "ann@example.com" "pw"
     = (one_post, Err (Message "Email already exists"))
  /\ @UserService.create_user toy_externals one_post 95 "s" "ann"
       "ann@example.com" "pw"
     = (one_post, Err (Message "Username already exists"))
  /\ @UserService.create_user toy_externals one_post 95 "s" "bob"
       "bob@example.com" ""
     = (one_post,
        Err (Raised
               (ValueError "Password must be non-empty and at most 72 bytes"))).
Proof.
  destruct (proj2 (create_user_outcomes toy_externals one_post 95 "s" " bob "
                     "bob@example.com" "pw") "s$pw"%string eq_refl)
    as [_ [_ [_ Hfree]]].
  destruct (proj2 (create_user_outcomes toy_externals one_post 95 "s" " ann "
                     "x@y.z" "pw") "s$pw"%string eq_refl) as [Hname _].
  destruct (proj2 (create_user_outcomes toy_externals one_post 95 "s" "bob"
                     "ann@example.com" "pw") "s$pw"%string eq_refl)
    as [_ [Hmail _]].
  destruct (proj2 (create_user_outcomes toy_externals one_post 95 "s" "ann"
                     "ann@example.com" "pw") "s$pw"%string eq_refl)
    as [_ [_ [Hboth _]]].
  split; [|split; [|split; [|split]]].
  - destruct Hfree as [user [Heq _]];
      try (simpl; intros [H | []]; discriminate).
    rewrite Heq. inversion Heq. reflexivity.
  - apply Hname; simpl; [now left | intros [H | []]; discriminate].
  - apply Hmail; simpl; [intros [H | []]; discriminate | now left].
  - apply Hboth; simpl; now left.
  - apply (proj1 (create_user_outcomes toy_externals one_post 95 "s" "bob"
                    "bob@example.com" "")).
    reflexivity.
Defined.

(** X9. Registration, then login: when [create_user] succeeds and bcrypt
    accepts the password against the hash it made of it,
    [authenticate_user] with the stripped username and the same password
    returns the user just created. *)
Theorem create_user_then_authenticate :
  forall (E : Externals) (st st' : Store) (now : Z)
         (salt username email password : string) (user : User.t),
    UserService.create_user st now salt username email password
    = (st', Ok user) ->
    check_password_hash (generate_password_hash salt password) password
    = true ->
    UserService.authenticate_user st' (Py.strip username) password = Ok user.
Proof.
  intros E st st' now salt username email password user Hcreate Hbcrypt.
  unfold UserService.create_user, UserService.insert_user in Hcreate.
  unfold generate_password_hash, check_password_hash in Hbcrypt.
  destruct (bcrypt_generate salt password) as [e | h]; [discriminate|].
  simpl in Hcreate.
  destruct (existsb _ (users st)) eqn:Hname;
    [simpl in Hcreate;
     repeat match type of Hcreate with
            | context [if ?c then _ else _] => destruct c
            end; discriminate|].
  destruct (existsb (fun w => (User.email w =? _)%string) (users st));
    [discriminate|].
  inversion Hcreate; subst st' user; clear Hcreate.
  unfold UserService.authenticate_user, UserService.User_by_username.
  simpl. rewrite find_app_none.
  - simpl. rewrite String.eqb_refl.
    unfold UserService.check_password. simpl.
    destruct (bcrypt_check h password) as [e | [|]]; try discriminate.
    reflexivity.
  - apply find_none_iff. intros x Hx.
    destruct (String.eqb_spec (User.username x) (Py.strip username))
      as [Heq | Hne]; [|reflexivity].
    assert (existsb (fun w => (User.username w =? Py.strip username)%string)
                    (users st) = true).
    { apply existsb_exists. exists x. split; [exact Hx|].
      now apply String.eqb_eq. }
    congruence.
Qed.

Lemma create_user_then_authenticate_witness :
  @UserService.authenticate_user toy_externals
    (fst (@UserService.create_user toy_externals one_post 95 "s" " bob "
            "bob@example.com" "pw"))
    "bob" "pw"
  = Ok (User.mk 2 "bob" "bob@example.com" "s$pw" 95 true).
Proof.
  apply (create_user_then_authenticate toy_externals one_post _ 95 "s"
           " bob " "bob@example.com" "pw");
    reflexivity.
Defined.

(** ** One vote: its frame and its effect on the counts *)

Lemma votes_split (l : list Vote.t) (v : Vote.t) :
  In v l -> NoDup (map Vote.id l) ->
  exists l1 l2,
    l = l1 ++ v :: l2
    /\ Forall (fun w => negb (Vote.id w =? Vote.id v) = true) (l1 ++ l2).
Proof.
  intros Hin Hnd. apply in_split in Hin. destruct Hin as [l1 [l2 ->]].
  exists l1, l2. split; [reflexivity|].
  rewrite map_app in Hnd. simpl in Hnd. apply NoDup_remove_2 in Hnd.
  rewrite <- map_app in Hnd. apply Forall_forall. intros w Hw.
  apply negb_true_iff, Z.eqb_neq. intros Heq. apply Hnd.
  rewrite <- Heq. now apply in_map.
Qed.

Lemma delete_vote_split (st : Store) (v : Vote.t) (l1 l2 : list Vote.t) :
  votes st = l1 ++ v :: l2 ->
  Forall (fun w => negb (Vote.id w =? Vote.id v) = true) (l1 ++ l2) ->
  delete_vote st v = set_votes st (l1 ++ l2).
Proof.
  intros Hl Hothers. unfold delete_vote. f_equal. rewrite Hl.
  apply Forall_app in Hothers. destruct Hothers as [H1 H2].
  rewrite filter_app. simpl. rewrite Z.eqb_refl. simpl.
  now rewrite !filter_all.
Qed.

Lemma update_vote_split (st : Store) (v : Vote.t) (b : bool)
      (l1 l2 : list Vote.t) :
  votes st = l1 ++ v :: l2 ->
  Forall (fun w => negb (Vote.id w =? Vote.id v) = true) (l1 ++ l2) ->
  update_vote_type st v b = set_votes st (l1 ++ Vote.set_vote_type v b :: l2).
Proof.
  intros Hl Hothers. unfold update_vote_type. f_equal. rewrite Hl.
  apply Forall_app in Hothers. destruct Hothers as [H1 H2].
  assert (Hid : forall l, Forall (fun w => negb (Vote.id w =? Vote.id v) = true) l ->
                          map (fun w => if Vote.id w =? Vote.id v
                                        then Vote.set_vote_type w b else w) l
                          = l).
  { induction 1 as [|a l Ha _ IH]; simpl; [reflexivity|].
    apply negb_true_iff in Ha. now rewrite Ha, IH. }
  rewrite map_app. simpl. rewrite Z.eqb_refl. now rewrite !Hid.
Qed.

Lemma length_filter_insert {A : Type} (f : A -> bool) (l1 l2 : list A) (x : A) :
  Z.of_nat (length (filter f (l1 ++ x :: l2)))
  = Z.of_nat (length (filter f (l1 ++ l2))) + (if f x then 1 else 0).
Proof.
  rewrite !filter_app. simpl. destruct (f x); rewrite !length_app; simpl; lia.
Qed.

(** X10. The frame of a vote, in a store whose vote ids are distinct: a
    call of [vote_post] for user [u] on post [p] leaves the vote of every
    other (user, post) pair as it was and leaves the upvote and downvote
    counts of every other post as they were. *)
Theorem vote_post_frame :
  forall (st : Store) (now u p : Z) (b : bool),
    vote_ids_unique st ->
    let st' := fst (VoteService.vote_post st now u p b) in
    (forall u' p', (u', p') <> (u, p) ->
                   Vote_first st' u' p' = Vote_first st u' p')
    /\ (forall q, q <> p ->
                  upvotes st' q = upvotes st q
                  /\ downvotes st' q = downvotes st q).
Proof.
  intros st now u p b Hids st'. unfold st'.
  destruct (Post_get st p) as [post|] eqn:Hpost;
    [|rewrite vote_post_not_found by assumption; auto].
  rewrite (vote_post_store _ _ _ _ _ _ Hpost).
  destruct (Vote_first st u p) as [v|] eqn:Hfirst.
  - destruct (Vote_first_In _ _ _ _ Hfirst) as [Hin Hkey].
    destruct (votes_split _ _ Hin Hids) as [l1 [l2 [Hl Hothers]]].
    assert (Hother_pair : forall u' p', (u', p') <> (u, p) ->
              vote_of u' p' v = false).
    { intros u' p' Hne. destruct (vote_of u' p' v) eqn:Hof; [|reflexivity].
      apply vote_of_spec in Hof. congruence. }
    assert (Hother_post : forall q t, q <> p ->
              (Vote.post_id v =? q) && Bool.eqb (Vote.vote_type v) t = false).
    { intros q t Hq. inversion Hkey as [[Hu Hp]].
      destruct (Z.eqb_spec (Vote.post_id v) q); [congruence | reflexivity]. }
    destruct (Bool.eqb (Vote.vote_type v) b).
    + rewrite (delete_vote_split _ _ _ _ Hl Hothers). split.
      * intros u' p' Hne. unfold Vote_first; simpl. rewrite Hl.
        symmetry. apply find_app_skip. now apply Hother_pair.
      * intros q Hq. unfold upvotes, downvotes, count_votes; simpl.
        rewrite Hl, !length_filter_insert, !Hother_post by assumption. lia.
    + rewrite (update_vote_split _ _ _ _ _ Hl Hothers). split.
      * intros u' p' Hne. unfold Vote_first; simpl. rewrite Hl.
        rewrite !find_app_skip; [reflexivity| |]; now apply Hother_pair.
      * intros q Hq. unfold upvotes, downvotes, count_votes; simpl.
        rewrite Hl, !length_filter_insert. simpl.
        rewrite !Hother_post by assumption.
        inversion Hkey as [[Hu Hp]].
        destruct (Z.eqb_spec (Vote.post_id v) q); [congruence|]. simpl. lia.
  - split.
    + intros u' p' Hne. unfold Vote_first; simpl.
      rewrite find_app_skip; [now rewrite app_nil_r|].
      unfold vote_of; simpl.
      destruct (Z.eqb_spec u u'); destruct (Z.eqb_spec p p'); subst;
        try reflexivity. now elim Hne.
    + intros q Hq. unfold upvotes, downvotes. rewrite !count_votes_snoc. simpl.
      destruct (Z.eqb_spec p q); [congruence|]. simpl. lia.
Qed.

Lemma vote_post_frame_witness :
  Vote_first (fst (VoteService.vote_post one_post_upvoted 120 2 1 false)) 1 1
  = Vote_first one_post_upvoted 1 1.
Proof.
  apply (vote_post_frame one_post_upvoted 120 2 1 false).
  - unfold vote_ids_unique; simpl. repeat constructor; simpl; tauto.
  - discriminate.
Defined.

Lemma vote_post_dict (st : Store) (now u p : Z) (b : bool) (post : Post.t) :
  Post_get st p = Some post ->
  exists d, snd (VoteService.vote_post st now u p b) = Ok d
            /\ d_id d = p
            /\ d_upvotes d = upvotes (fst (VoteService.vote_post st now u p b)) p
            /\ d_downvotes d
               = downvotes (fst (VoteService.vote_post st now u p b)) p.
Proof.
  intros Hpost. pose proof (Post_get_id _ _ _ Hpost) as Hid.
  unfold VoteService.vote_post.
  rewrite (Post_get_bind _ _ _ Hpost), Hpost.
  destruct (Vote_first st u p) as [v|] eqn:Hfirst.
  - destruct (Bool.eqb (Vote.vote_type v) b); simpl;
      eexists; (split; [reflexivity|]); simpl; now rewrite Hid.
  - rewrite (insert_vote_fresh _ _ _ _ _ Hfirst). simpl.
    eexists; (split; [reflexivity|]); simpl; now rewrite Hid.
Qed.

(** X11. The counts after a vote, for an existing post in a store whose
    vote ids are distinct: [vote_post] changes the post's upvote and
    downvote counts by exactly the amounts of the toggle (a new vote adds
    one to its side, a removed vote takes one from its side, a changed vote
    moves one from one side to the other), and the dictionary it returns
    reports the new counts. *)
Theorem vote_post_counts :
  forall (st : Store) (now u p : Z) (b : bool) (post : Post.t),
    Post_get st p = Some post ->
    vote_ids_unique st ->
    let st' := fst (VoteService.vote_post st now u p b) in
    let delta := count_delta (vote_state_of st u p) b in
    upvotes st' p = upvotes st p + fst delta
    /\ downvotes st' p = downvotes st p + snd delta
    /\ vote_score st' p = vote_score st p + fst delta - snd delta
    /\ exists d, snd (VoteService.vote_post st now u p b) = Ok d
                 /\ d_upvotes d = upvotes st p + fst delta
                 /\ d_downvotes d = downvotes st p + snd delta.
Proof.
  intros st now u p b post Hpost Hids st' delta.
  assert (Hcounts : upvotes st' p = upvotes st p + fst delta
                    /\ downvotes st' p = downvotes st p + snd delta).
  { unfold st', delta. rewrite (vote_post_store _ _ _ _ _ _ Hpost).
    unfold vote_state_of.
    destruct (Vote_first st u p) as [v|] eqn:Hfirst.
    - destruct (Vote_first_In _ _ _ _ Hfirst) as [Hin Hkey].
      destruct (votes_split _ _ Hin Hids) as [l1 [l2 [Hl Hothers]]].
      inversion Hkey as [[Hu Hp]].
      destruct (Bool.eqb (Vote.vote_type v) b) eqn:Hsame.
      + rewrite (delete_vote_split _ _ _ _ Hl Hothers).
        unfold upvotes, downvotes, count_votes; simpl.
        rewrite Hl, !length_filter_insert, Hp, Z.eqb_refl.
        apply eqb_prop in Hsame. subst b.
        destruct (Vote.vote_type v); simpl; lia.
      + rewrite (update_vote_split _ _ _ _ _ Hl Hothers).
        unfold upvotes, downvotes, count_votes; simpl.
        rewrite Hl, !length_filter_insert. simpl. rewrite Hp, Z.eqb_refl.
        destruct (Vote.vote_type v), b; simpl in *; try discriminate; lia.
    - unfold upvotes, downvotes. rewrite !count_votes_snoc. simpl.
      rewrite Z.eqb_refl. destruct b; simpl; lia. }
  destruct Hcounts as [Hup Hdown].
  split; [exact Hup|]. split; [exact Hdown|].
  split; [unfold vote_score; lia|].
  destruct (vote_post_dict st now u p b post Hpost) as [d [Hd [_ [Hdu Hdd]]]].
  exists d. fold st' in Hdu, Hdd. split; [exact Hd|]. split; congruence.
Qed.

Lemma vote_post_counts_witness :
  upvotes (fst (VoteService.vote_post one_post_upvoted 120 1 1 false)) 1
  = upvotes one_post_upvoted 1 + -1
  /\ downvotes (fst (VoteService.vote_post one_post_upvoted 120 1 1 false)) 1
     = downvotes one_post_upvoted 1 + 1.
Proof.
  destruct (vote_post_counts one_post_upvoted 120 1 1 false first_post eq_refl)
    as [Hup [Hdown _]].
  - unfold vote_ids_unique; simpl. repeat constructor; simpl; tauto.
  - split; [exact Hup | exact Hdown].
Defined.

(** ** Comments *)

Lemma Sorted_weaken {A : Type} (R R' : A -> A -> Prop) (l : list A) :
  (forall a b, R a b -> R' a b) -> Sorted R l -> Sorted R' l.
Proof.
  intros Himp. induction 1 as [|a l _ IH Hhd]; constructor; [exact IH|].
  destruct Hhd; constructor. now apply Himp.
Qed.

Lemma paginate_total {A : Type} (rows : list A) (page per_page : Z) :
  total (paginate rows page per_page) = Z.of_nat (length rows).
Proof. reflexivity. Qed.

Lemma paginate_size {A : Type} (rows : list A) (page per_page : Z) :
  1 <= per_page ->
  Z.of_nat (length (items (paginate rows page per_page))) <= per_page.
Proof.
  intros Hpp. unfold paginate; simpl.
  destruct (per_page <? 1) eqn:Hlt; [apply Z.ltb_lt in Hlt; lia|].
  pose proof (firstn_le_length (Z.to_nat per_page)
                (skipn (Z.to_nat
                          (((if page <? 1 then 1 else page) - 1) * per_page))
                       rows)).
  lia.
Qed.

(** X12. [get_post_comments] succeeds exactly when the post id, the page
    size and the offset of the page, as [paginate] settles them, are
    within the signed 64-bit range; otherwise it fails with the driver's
    [OverflowError].  On success every item of the page is an active
    comment of the requested post, the items are ordered newest first,
    there are at most [per_page] of them (for a page size of at least 1),
    and [total] is the number of active comments of the post whatever the
    page. *)
Theorem get_post_comments_page :
  forall (E : Externals) (st : Store) (post_id page per_page : Z),
    let limit := if per_page <? 1 then 20 else per_page in
    let offset := ((if page <? 1 then 1 else page) - 1) * limit in
    ((exists pg,
         CommentService.get_post_comments st post_id page per_page = Ok pg)
     <-> (int64 post_id = true /\ int64 limit = true /\ int64 offset = true))
    /\ (forall f,
          CommentService.get_post_comments st post_id page per_page = Err f ->
          f = Raised OverflowError)
    /\ (forall pg,
          CommentService.get_post_comments st post_id page per_page = Ok pg ->
          (forall c, In c (items pg) ->
                     In c (comments st) /\ Comment.post_id c = post_id
                     /\ Comment.is_active c = true)
          /\ Sorted (fun a b => Comment.created_at b <= Comment.created_at a)
                    (items pg)
          /\ total pg = Z.of_nat (length (active_comments st post_id))
          /\ (1 <= per_page -> Z.of_nat (length (items pg)) <= per_page)).
Proof.
  intros E st post_id page per_page limit offset.
  unfold CommentService.get_post_comments. fold limit. fold offset.
  destruct (int64 post_id && int64 limit && int64 offset) eqn:Hrange.
  - split; [|split]; [|discriminate|].
    + split; [|intros _; eexists; reflexivity].
      intros _. apply andb_true_iff in Hrange. destruct Hrange as [Hr Ho].
      apply andb_true_iff in Hr. tauto.
    + intros pg Hok. inversion Hok; subst pg; clear Hok.
      split; [|split; [|split]].
      * intros c Hc. apply paginate_incl, db_order_by_In, filter_In in Hc.
        destruct Hc as [Hin Hc]. apply andb_true_iff in Hc.
        destruct Hc as [Hpost Hactive]. apply Z.eqb_eq in Hpost. auto.
      * apply paginate_Sorted.
        apply (Sorted_weaken
                 (rel_of (fun a b => Comment.created_at b
                                     <=? Comment.created_at a))).
        -- intros a b Hab. now apply Z.leb_le.
        -- apply db_order_by_Sorted. intros a b.
           destruct (Z.leb_spec (Comment.created_at b) (Comment.created_at a));
             [now left | right; apply Z.leb_le; lia].
      * rewrite paginate_total, db_order_by_length. reflexivity.
      * apply paginate_size.
  - split; [|split]; [| |discriminate].
    + split; [intros [pg H]; discriminate|].
      intros [H1 [H2 H3]]. rewrite H1, H2, H3 in Hrange. discriminate.
    + intros f H. now inversion H.
Qed.

(** X13. [create_comment] on a post id outside the signed 64-bit range
    fails with the driver's [OverflowError]; on an id within the range
    that no post has it fails with "Post not found"; on an existing post
    with an author id outside the range it fails with the
    [OverflowError] of the INSERT.  Each failure returns the store as it
    was.  On an existing post with an author id within the range it
    appends one active comment with the stripped content, the given author
    and the time of the call, under an id that no comment has; the comment
    count of that post and the number of its active comments grow by one,
    and the comment count of every other post is as before. *)
Theorem create_comment_effects :
  forall (st : Store) (now : Z) (content : string) (author_id post_id : Z),
    (int64 post_id = false ->
     CommentService.create_comment st now content author_id post_id
     = (st, Err (Raised OverflowError)))
    /\ (int64 post_id = true -> Post_get st post_id = None ->
        CommentService.create_comment st now content author_id post_id
        = (st, Err (Message "Post not found")))
    /\ (forall post, Post_get st post_id = Some post ->
        int64 author_id = false ->
        CommentService.create_comment st now content author_id post_id
        = (st, Err (Raised OverflowError)))
    /\ (forall post, Post_get st post_id = Some post ->
        int64 author_id = true ->
        exists c,
          CommentService.create_comment st now content author_id post_id
          = (set_comments st (comments st ++ [c]), Ok c)
          /\ ~ In (Comment.id c) (map Comment.id (comments st))
          /\ Comment.content c = Py.strip content
          /\ Comment.author_id c = author_id
          /\ Comment.post_id c = post_id
          /\ Comment.created_at c = now
          /\ Comment.is_active c = true
          /\ comment_count (set_comments st (comments st ++ [c])) post_id
             = comment_count st post_id + 1
          /\ length (active_comments (set_comments st (comments st ++ [c]))
                                     post_id)
             = S (length (active_comments st post_id))
          /\ (forall q, q <> post_id ->
                comment_count (set_comments st (comments st ++ [c])) q
                = comment_count st q)).
Proof.
  intros st now content author_id post_id.
  unfold CommentService.create_comment.
  split; [|split; [|split]].
  - intros Hrange. now rewrite (bind_overflow _ Hrange).
  - intros Hrange Hnone. now rewrite (bind_none _ Hrange), Hnone.
  - intros post Hpost Hauthor.
    now rewrite (Post_get_bind _ _ _ Hpost), Hpost, (bind_overflow _ Hauthor).
  - intros post Hpost Hauthor.
    rewrite (Post_get_bind _ _ _ Hpost), Hpost, (bind_none _ Hauthor).
    eexists. split; [reflexivity|]. simpl.
    split; [apply fresh_id_not_in|].
    repeat split.
    + unfold comment_count; simpl. rewrite filter_app, length_app. simpl.
      rewrite Z.eqb_refl. simpl. lia.
    + unfold active_comments; simpl. rewrite filter_app, length_app. simpl.
      rewrite Z.eqb_refl. simpl. lia.
    + intros q Hq. unfold comment_count; simpl.
      rewrite filter_app, length_app. simpl.
      destruct (Z.eqb_spec post_id q); [congruence|]. simpl. lia.
Qed.

Lemma create_comment_effects_witness :
  CommentService.create_comment one_post 130 "Nice." 1 9223372036854775808
  = (one_post, Err (Raised OverflowError))
  /\ CommentService.create_comment one_post 130 "Nice." 1 9
     = (one_post, Err (Message "Post not found"))
  /\ CommentService.create_comment one_post 130 "Nice." 9223372036854775808 1
     = (one_post, Err (Raised OverflowError))
  /\ exists c,
       CommentService.create_comment one_post 130 " Nice. " 1 1
       = (set_comments one_post (comments one_post ++ [c]), Ok c)
       /\ Comment.content c = "Nice."%string.
Proof.
  destruct (create_comment_effects one_post 130 "Nice." 1 9223372036854775808)
    as [Hpost _].
  destruct (create_comment_effects one_post 130 "Nice." 1 9)
    as [_ [Hmissing _]].
  destruct (create_comment_effects one_post 130 "Nice." 9223372036854775808 1)
    as [_ [_ [Hauthor _]]].
  destruct (create_comment_effects one_post 130 " Nice. " 1 1)
    as [_ [_ [_ Hfound]]].
  split; [apply Hpost; reflexivity|].
  split; [apply Hmissing; reflexivity|].
  split; [apply (Hauthor first_post); reflexivity|].
  destruct (Hfound first_post eq_refl eq_refl) as [c [Heq [_ [Hcontent _]]]].
  exists c. split; [exact Heq | exact Hcontent].
Defined.

Lemma get_post_comments_page_witness :
  (exists pg,
      @CommentService.get_post_comments toy_externals
        (serve_all (E := toy_externals) empty_store session) 1 1 10 = Ok pg
      /\ Z.of_nat (length (items pg)) <= 10)
  /\ @CommentService.get_post_comments toy_externals
       (serve_all (E := toy_externals) empty_store session)
       9223372036854775808 1 10
     = Err (Raised OverflowError).
Proof.
  split.
  - destruct (get_post_comments_page toy_externals
                (serve_all (E := toy_externals) empty_store session) 1 1 10)
      as [Hiff [_ Hpage]].
    destruct (proj2 Hiff) as [pg Heq]; [repeat split|].
    exists pg. split; [exact Heq|].
    destruct (Hpage pg Heq) as [_ [_ [_ Hsize]]]. apply Hsize. lia.
  - destruct (get_post_comments_page toy_externals
                (serve_all (E := toy_externals) empty_store session)
                9223372036854775808 1 10)
      as [Hiff [Herr _]].
    destruct (CommentService.get_post_comments _ _ _ _) as [pg | f] eqn:Heq.
    + destruct (proj1 Hiff) as [H _]; [now exists pg | discriminate].
    + now rewrite (Herr f eq_refl).
Defined.

(** ** Searching *)

Lemma rstrip_idempotent (s : string) : Py.rstrip (Py.rstrip s) = Py.rstrip s.
Proof.
  induction s as [|c s IH]; [reflexivity|]. simpl.
  destruct (Py.rstrip s) as [|d r] eqn:Hr.
  - destruct (Py.isspace c) eqn:Hc; simpl; [reflexivity|]. now rewrite Hc.
  - simpl in *. now rewrite IH.
Qed.

Lemma lstrip_head (s : string) :
  Py.lstrip s = EmptyString
  \/ exists c t, Py.lstrip s = String c t /\ Py.isspace c = false.
Proof.
  induction s as [|c s IH]; simpl; [now left|].
  destruct (Py.isspace c) eqn:Hc; [exact IH|].
  right. now exists c, s.
Qed.

Lemma lstrip_rstrip_head (c : ascii) (t : string) :
  Py.isspace c = false ->
  Py.lstrip (Py.rstrip (String c t)) = Py.rstrip (String c t).
Proof.
  intros Hc. simpl.
  destruct (Py.rstrip t); rewrite ?Hc; simpl; rewrite ?Hc; reflexivity.
Qed.

Lemma strip_idempotent (s : string) : Py.strip (Py.strip s) = Py.strip s.
Proof.
  unfold Py.strip.
  destruct (lstrip_head s) as [-> | [c [t [-> Hc]]]]; [reflexivity|].
  rewrite (lstrip_rstrip_head c t Hc). apply rstrip_idempotent.
Qed.

(** X14. [search_posts] ignores the whitespace around the query: for every
    query, searching for it and searching for its stripped text give the
    same result. *)
Theorem search_posts_strips_query :
  forall (E : Externals) (st : Store) (q : string) (page per_page : Z),
    PostService.search_posts st (Some q) page per_page
    = PostService.search_posts st (Some (Py.strip q)) page per_page.
Proof.
  intros E st q page per_page. unfold PostService.search_posts.
  rewrite strip_idempotent.
  destruct (Py.strip q) as [|c t] eqn:Hs; simpl.
  - now rewrite orb_true_r.
  - destruct q as [|d q']; [discriminate|]. reflexivity.
Qed.

Lemma like_percent_step (rest s : string) :
  like_match (String "%" rest) s
  = like_match rest s
    || match s with
       | EmptyString => false
       | String _ s' => like_match (String "%" rest) s'
       end.
Proof. destruct s; reflexivity. Qed.

Lemma like_percent_all (s : string) : like_match "%" s = true.
Proof.
  induction s as [|c s IH]; [reflexivity|].
  rewrite like_percent_step. rewrite IH. apply orb_true_r.
Qed.

Lemma like_literal_prefix (t s : string) :
  no_wildcard t = true ->
  like_match (t ++ "%") s = Py.prefix t s.
Proof.
  revert s. induction t as [|c t IH]; intros s Hnw.
  - simpl append. rewrite like_percent_all. now destruct s.
  - simpl in Hnw. apply andb_true_iff in Hnw. destruct Hnw as [Hc Hnw].
    apply andb_true_iff in Hc. destruct Hc as [Hpct Hund].
    apply negb_true_iff in Hpct. apply negb_true_iff in Hund.
    simpl. rewrite Hpct. destruct s as [|d s]; [reflexivity|].
    rewrite Hund. simpl. now rewrite IH.
Qed.

Lemma like_contains (t s : string) :
  no_wildcard t = true ->
  like_match (String "%" (t ++ "%")) s = Py.contains t s.
Proof.
  intros Hnw. induction s as [|d s IH].
  - rewrite like_percent_step, like_literal_prefix by assumption.
    simpl. now rewrite orb_false_r.
  - rewrite like_percent_step, like_literal_prefix by assumption.
    rewrite IH. reflexivity.
Qed.

Lemma sql_lower_append (a b : string) :
  sql_lower (a ++ b) = (sql_lower a ++ sql_lower b)%string.
Proof.
  induction a as [|c a IH]; simpl; [reflexivity | now rewrite IH].
Qed.

Lemma sql_lower_no_wildcard (t : string) :
  no_wildcard (sql_lower t) = no_wildcard t.
Proof.
  induction t as [|c t IH]; [reflexivity|]. simpl. rewrite IH. f_equal.
  destruct c as [[] [] [] [] [] [] [] []]; reflexivity.
Qed.

Lemma sql_lower_no_nul (t : string) : no_nul (sql_lower t) = no_nul t.
Proof.
  induction t as [|c t IH]; [reflexivity|]. simpl. rewrite IH. f_equal.
  destruct c as [[] [] [] [] [] [] [] []]; reflexivity.
Qed.

Lemma c_str_term (t : string) :
  no_nul t = true -> c_str (t ++ "%") = (t ++ "%")%string.
Proof.
  induction t as [|c t IH]; [reflexivity|]. simpl. intros H.
  apply andb_true_iff in H. destruct H as [Hc Ht].
  apply negb_true_iff in Hc. rewrite Hc. now rewrite IH.
Qed.

Lemma ilike_contains (s t : string) :
  no_wildcard t = true ->
  no_nul t = true ->
  ilike s ("%" ++ t ++ "%")
  = Py.contains (sql_lower t) (c_str (sql_lower s)).
Proof.
  intros Hnw Hnul. unfold ilike, like.
  change ("%" ++ t ++ "%")%string with (String "%" (t ++ "%")).
  simpl sql_lower at 1. rewrite sql_lower_append.
  change (sql_lower "%") with "%"%string.
  change (if (65 <=? Py.code "%")%N && (Py.code "%" <=? 90)%N
          then ascii_of_N (Py.code "%" + 32) else "%"%char) with "%"%char.
  cbn [c_str]. change (Ascii.eqb "%" "000") with false. cbv iota.
  rewrite c_str_term by (now rewrite sql_lower_no_nul).
  apply like_contains. now rewrite sql_lower_no_wildcard.
Qed.

(** X15. For a query that is not blank and whose stripped text has no
    [%], no [_] and no NUL, every successful [search_posts] returns one
    page of the rows of a query result that holds exactly the published
    posts whose title or body contains that text, letters A..Z compared
    without case, ordered by [published_at] descending: every item of the
    page is such a post, the items are in that order, and [total] is the
    number of such posts. *)
Theorem search_posts_is_substring_match :
  forall (E : Externals) (st : Store) (q : string) (page per_page : Z)
         (pg : Pagination Post.t),
    is_blank (Some q) = false ->
    no_wildcard (Py.strip q) = true ->
    no_nul (Py.strip q) = true ->
    PostService.search_posts st (Some q) page per_page = Ok pg ->
    (exists rows,
        pg = paginate rows page per_page
        /\ Permutation rows (filter (text_hit (Py.strip q)) (posts st))
        /\ Sorted (fun a b => Post.published_at b <= Post.published_at a)
                  rows)
    /\ (forall p, In p (items pg) ->
                  In p (posts st) /\ text_hit (Py.strip q) p = true)
    /\ Sorted (fun a b => Post.published_at b <= Post.published_at a)
              (items pg)
    /\ total pg
       = Z.of_nat (length (filter (text_hit (Py.strip q)) (posts st))).
Proof.
  intros E st q page per_page pg Hblank Hnw Hnul Hok.
  unfold PostService.search_posts in Hok. simpl in Hblank.
  apply negb_false_iff in Hblank. rewrite Hblank in Hok.
  assert (Hq : Py.str_truthy q = true).
  { destruct q; [discriminate | reflexivity]. }
  rewrite Hq in Hok. cbn [negb orb] in Hok.
  rewrite (filter_ext _ (text_hit (Py.strip q))) in Hok
    by (intros p; unfold text_hit; now rewrite !ilike_contains).
  inversion Hok; subst pg; clear Hok.
  assert (Hsorted :
    Sorted (fun a b => Post.published_at b <= Post.published_at a)
           (db_order_by (desc_le Cpublished_at)
                        (filter (text_hit (Py.strip q)) (posts st)))).
  { apply (Sorted_weaken (rel_of (desc_le Cpublished_at))).
    - intros a b Hab. unfold rel_of, desc_le in Hab. simpl in Hab.
      destruct (Z.compare_spec (Post.published_at a) (Post.published_at b));
        (lia || discriminate).
    - apply db_order_by_Sorted, desc_le_total. }
  split; [|split; [|split]].
  - eexists. split; [reflexivity|]. split; [apply db_order_by_perm|].
    exact Hsorted.
  - intros p Hp. apply paginate_incl, db_order_by_In, filter_In in Hp.
    exact Hp.
  - now apply paginate_Sorted.
  - rewrite paginate_total, db_order_by_length. reflexivity.
Qed.

Lemma search_posts_is_substring_match_witness :
  exists pg,
    @PostService.search_posts toy_externals with_draft (Some " hELLo "%string) 1 10
    = Ok pg
    /\ items pg = [first_post]
    /\ total pg = 1
    /\ text_hit "hELLo" first_post = true.
Proof.
  eexists. split; [reflexivity|]. split; [reflexivity|].
  destruct (search_posts_is_substring_match toy_externals with_draft
              " hELLo "%string 1 10 _ eq_refl eq_refl eq_refl eq_refl)
    as [_ [Hin [_ Htotal]]].
  split; [exact Htotal|].
  apply (Hin first_post). now left.
Defined.

(** ** Pages of the listing *)

Lemma NoDup_slice {A : Type} (n m : nat) (l : list A) :
  NoDup l -> NoDup (firstn n (skipn m l)).
Proof.
  intros H.
  rewrite <- (firstn_skipn m l) in H. apply NoDup_app_remove_l in H.
  rewrite <- (firstn_skipn n (skipn m l)) in H.
  now apply NoDup_app_remove_r in H.
Qed.

(** X16. Whenever [get_all_posts] succeeds, whatever the sort key and the
    direction, [total] is the number of published posts, a page of size at
    least 1 holds at most [per_page] items, and when the ids of the posts
    are distinct no post appears twice on the page. *)
Theorem get_all_posts_page :
  forall (E : Externals) (st : Store) (page per_page : Z)
         (sort_by order : string) (pg : Pagination Post.t),
    PostService.get_all_posts st page per_page sort_by order = Ok pg ->
    total pg = Z.of_nat (length (filter Post.is_published (posts st)))
    /\ (1 <= per_page -> Z.of_nat (length (items pg)) <= per_page)
    /\ (NoDup (map Post.id (posts st)) -> NoDup (map Post.id (items pg))).
Proof.
  intros E st page per_page sort_by order pg Hok.
  assert (Hshape : exists le,
            pg = paginate (db_order_by le (filter Post.is_published (posts st)))
                          page per_page).
  { unfold PostService.get_all_posts in Hok.
    destruct (PostService.getattr_Post sort_by (Column Cpublished_at))
      as [c | name | name | name | value | name];
      try (destruct (Py.lower order =? "desc")%string; discriminate);
      try (destruct (foreign_order name _) as [e | le]; [discriminate|]);
      inversion Hok; eexists; reflexivity. }
  destruct Hshape as [le ->].
  split; [|split].
  - rewrite paginate_total, db_order_by_length. reflexivity.
  - apply paginate_size.
  - intros Hnd. unfold paginate; simpl.
    rewrite <- firstn_map, <- skipn_map. apply NoDup_slice.
    apply (Permutation_NoDup (l := map Post.id (filter Post.is_published (posts st)))).
    + apply Permutation_map. symmetry. apply db_order_by_perm.
    + now apply NoDup_map_filter.
Qed.

Lemma get_all_posts_page_witness :
  exists pg,
    @PostService.get_all_posts toy_externals with_draft 1 10 "title" "asc"
    = Ok pg
    /\ total pg = 1 /\ Z.of_nat (length (items pg)) <= 10.
Proof.
  eexists. split; [reflexivity|].
  destruct (get_all_posts_page toy_externals with_draft 1 10 "title" "asc" _
              eq_refl) as [Htotal [Hsize _]].
  split; [exact Htotal | apply Hsize; lia].
Defined.

(** ** The handlers *)

Lemma jwt_required_resolved {A : Type} (st : Store) (uid : Z) (user : User.t)
      (reject : A) (f : User.t -> A) :
  User_get st uid = Some user -> User.is_active user = true ->
  Routes.jwt_required_custom st (Some uid) reject f = f user.
Proof.
  intros Hget Hactive. unfold Routes.jwt_required_custom.
  now rewrite Hget, Hactive.
Qed.

Lemma User_get_bind_id (st : Store) (uid : Z) (user : User.t) :
  User_get st uid = Some user -> bind (User.id user) = None.
Proof.
  intros H. rewrite (proj2 (User_get_id _ _ _ H)).
  now apply (User_get_bind _ _ _ H).
Qed.

Lemma opt_int_ne_false (a : option Z) (b : Z) :
  Py.opt_int_ne a b = false <-> a = Some b.
Proof.
  destruct a as [x|]; simpl; [|split; discriminate].
  rewrite negb_false_iff, Z.eqb_eq. split; congruence.
Qed.

Lemma update_post_by_author (st : Store) (now post_id a : Z)
      (t b : option string) (post : Post.t) :
  Post_get st post_id = Some post ->
  Post.author_id post = Some a ->
  exists st' post',
    PostService.update_post st now post_id t b (Some a) = (st', Ok post')
    /\ Post_get st' post_id = Some post'
    /\ Post.author_id post' = Some a.
Proof.
  intros Hpost Hauthor. unfold PostService.update_post.
  rewrite (Post_get_bind _ _ _ Hpost), Hpost.
  eexists. eexists. split; [reflexivity|]. split.
  - apply Post_get_find in Hpost. destruct Hpost as [Hrange Hfind].
    unfold Post_get; simpl. rewrite Hrange. now apply find_map_replace.
  - simpl. rewrite Hauthor. now destruct (a =? 0).
Qed.

(** X17. PUT /api/posts/<post_id> is for the author only.  The handler
    answers 200 only to an active user whose id is the post's author id;
    every other answer leaves the store as it was; and the author, sending
    a body that is not empty and passes validation, gets 200 and the
    update of the service, which keeps the post's author id. *)
Theorem put_post_author_only :
  forall (st : Store) (now : Z) (identity : option Z) (post_id : Z)
         (title body : Schemas.jfield),
    (snd (Routes.update_post st now identity post_id title body) = 200 ->
     exists uid user post,
       identity = Some uid /\ User_get st uid = Some user
       /\ User.is_active user = true
       /\ Post_get st post_id = Some post
       /\ Post.author_id post = Some (User.id user))
    /\ (snd (Routes.update_post st now identity post_id title body) <> 200 ->
        fst (Routes.update_post st now identity post_id title body) = st)
    /\ (forall uid user post t b,
          identity = Some uid -> User_get st uid = Some user ->
          User.is_active user = true ->
          Post_get st post_id = Some post ->
          Post.author_id post = Some (User.id user) ->
          Schemas.is_absent title && Schemas.is_absent body = false ->
          Schemas.PostUpdateSchema title body = Some (t, b) ->
          Routes.update_post st now identity post_id title body
          = (fst (PostService.update_post st now post_id t b
                    (Some (User.id user))), 200)
          /\ exists post',
               Post_get (fst (Routes.update_post st now identity post_id
                                title body)) post_id = Some post'
               /\ Post.author_id post' = Post.author_id post).
Proof.
  intros st now identity post_id title body.
  split; [|split].
  - unfold Routes.update_post, Routes.jwt_required_custom.
    destruct identity as [uid|]; [|discriminate].
    destruct (User_get st uid) as [user|] eqn:Hget; [|discriminate].
    destruct (User.is_active user) eqn:Hactive; [|discriminate]. simpl.
    destruct (Schemas.is_absent title && Schemas.is_absent body);
      [discriminate|].
    destruct (Schemas.PostUpdateSchema title body) as [[t b]|]; [|discriminate].
    unfold PostService.get_post_by_id.
    destruct (bind post_id); [discriminate|].
    destruct (Post_get st post_id) as [post|] eqn:Hpost; [|discriminate].
    destruct (Py.opt_int_ne (Post.author_id post) (User.id user)) eqn:Hne;
      [discriminate|].
    intros _. apply opt_int_ne_false in Hne. now exists uid, user, post.
  - unfold Routes.update_post, Routes.jwt_required_custom.
    destruct identity as [uid|]; [|reflexivity].
    destruct (User_get st uid) as [user|] eqn:Hget; [|reflexivity].
    destruct (User.is_active user) eqn:Hactive; [|reflexivity]. simpl.
    destruct (Schemas.is_absent title && Schemas.is_absent body);
      [reflexivity|].
    destruct (Schemas.PostUpdateSchema title body) as [[t b]|]; [|reflexivity].
    unfold PostService.get_post_by_id.
    destruct (bind post_id); [reflexivity|].
    destruct (Post_get st post_id) as [post|] eqn:Hpost; [|reflexivity].
    destruct (Py.opt_int_ne (Post.author_id post) (User.id user)) eqn:Hne;
      [reflexivity|].
    apply opt_int_ne_false in Hne.
    destruct (update_post_by_author st now post_id (User.id user) t b post
                Hpost Hne) as [st' [post' [-> _]]].
    simpl. intros H. now elim H.
  - intros uid user post t b -> Hget Hactive Hpost Hauthor Hdata Hvalid.
    unfold Routes.update_post.
    rewrite (jwt_required_resolved st uid user _ _ Hget Hactive).
    rewrite Hdata, Hvalid. unfold PostService.get_post_by_id.
    rewrite (Post_get_bind _ _ _ Hpost), Hpost.
    rewrite (proj2 (opt_int_ne_false _ _) Hauthor).
    destruct (update_post_by_author st now post_id (User.id user) t b post
                Hpost Hauthor) as [st' [post' [Heq [Hstored Hkept]]]].
    rewrite Heq. simpl. split; [reflexivity|].
    exists post'. split; [exact Hstored | congruence].
Qed.

Lemma put_post_author_only_witness :
  Routes.update_post one_post 200 (Some 1) 1 (Schemas.Str "Hi") Schemas.Absent
  = (fst (PostService.update_post one_post 200 1 (Some "Hi"%string) None
            (Some 1)), 200).
Proof.
  destruct (put_post_author_only one_post 200 (Some 1) 1
              (Schemas.Str "Hi") Schemas.Absent) as [_ [_ Hauthor]].
  apply (Hauthor 1 ann first_post (Some "Hi"%string) None); reflexivity.
Defined.

Lemma delete_cascade_gone (st : Store) (post : Post.t) :
  Post_get (PostService.delete_cascade st post) (Post.id post) = None.
Proof.
  unfold Post_get, PostService.delete_cascade; simpl.
  destruct (int64 (Post.id post)); [|reflexivity].
  apply find_none_iff. intros x Hx. apply filter_In in Hx.
  destruct Hx as [_ Hne]. now apply negb_true_iff in Hne.
Qed.

(** X18. DELETE /api/posts/<post_id>.  The handler answers 200 only to an
    active user whose id is the post's author id or is 0, and in a store
    reachable from the empty database only to the post's author; every
    other answer leaves the store as it was; and the author gets 200, after
    which the post is not found. *)
Theorem delete_handler_author_only :
  forall (E : Externals) (st : Store) (identity : option Z) (post_id : Z),
    (snd (Routes.delete_post st identity post_id) = 200 ->
     exists uid user post,
       identity = Some uid /\ User_get st uid = Some user
       /\ User.is_active user = true
       /\ Post_get st post_id = Some post
       /\ (Post.author_id post = Some (User.id user) \/ User.id user = 0)
       /\ (reachable st -> Post.author_id post = Some (User.id user)))
    /\ (snd (Routes.delete_post st identity post_id) <> 200 ->
        fst (Routes.delete_post st identity post_id) = st)
    /\ (forall uid user post,
          identity = Some uid -> User_get st uid = Some user ->
          User.is_active user = true ->
          Post_get st post_id = Some post ->
          Post.author_id post = Some (User.id user) ->
          Routes.delete_post st identity post_id
          = (PostService.delete_cascade st post, 200)
          /\ PostService.get_post_by_id
               (fst (Routes.delete_post st identity post_id)) post_id
             = Err (Message "Post not found")).
Proof.
  intros E st identity post_id. split; [|split].
  - unfold Routes.delete_post.
    destruct identity as [uid|]; [|discriminate].
    destruct (User_get st uid) as [user|] eqn:Hget; [|discriminate].
    destruct (User.is_active user) eqn:Hactive; [|discriminate]. simpl.
    unfold PostService.delete_post.
    destruct (bind post_id); [discriminate|].
    destruct (Post_get st post_id) as [post|] eqn:Hpost; [|discriminate].
    pose proof (delete_check_false_iff post (Some (User.id user))) as Hiff.
    destruct (Py.opt_int_truthy (Some (User.id user)) && _) eqn:Hcheck;
      [discriminate|].
    intros _. exists uid, user, post.
    assert (Hwho : Post.author_id post = Some (User.id user)
                   \/ User.id user = 0).
    { destruct (proj1 Hiff eq_refl) as [H | [H | H]];
        [discriminate | right; congruence | now left]. }
    repeat split; try assumption.
    intros Hreach. destruct Hwho as [H | H]; [exact H|].
    apply reachable_user_ids in Hreach. rewrite Forall_forall in Hreach.
    apply User_get_id in Hget. destruct Hget as [Hin _].
    specialize (Hreach user Hin). lia.
  - unfold Routes.delete_post.
    destruct identity as [uid|]; [|reflexivity].
    destruct (User_get st uid) as [user|]; [|reflexivity].
    destruct (User.is_active user); [|reflexivity]. simpl.
    unfold PostService.delete_post.
    destruct (bind post_id); [reflexivity|].
    destruct (Post_get st post_id) as [post|]; [|reflexivity].
    destruct (Py.opt_int_truthy (Some (User.id user)) && _); [reflexivity|].
    simpl. intros H. now elim H.
  - intros uid user post -> Hget Hactive Hpost Hauthor.
    unfold Routes.delete_post. rewrite Hget, Hactive. simpl.
    unfold PostService.delete_post.
    rewrite (Post_get_bind _ _ _ Hpost), Hpost.
    rewrite (proj2 (delete_check_false_iff post (Some (User.id user))))
      by (right; right; exact Hauthor).
    simpl. split; [reflexivity|].
    unfold PostService.get_post_by_id.
    rewrite (Post_get_bind _ _ _ Hpost).
    rewrite <- (Post_get_id _ _ _ Hpost). now rewrite delete_cascade_gone.
Qed.

Lemma delete_handler_author_only_witness :
  Routes.delete_post one_post_upvoted (Some 1) 1
  = (PostService.delete_cascade one_post_upvoted first_post, 200).
Proof.
  destruct (delete_handler_author_only toy_externals one_post_upvoted
              (Some 1) 1) as [_ [_ Hauthor]].
  apply (Hauthor 1 ann first_post); reflexivity.
Defined.

(** X19. POST /api/posts.  The handler answers 201 only to an active user
    with a body that passes [PostCreateSchema], and then exactly one post
    is appended, published, whose author id is that user's id; every other
    answer leaves the store as it was; and an active user with a valid
    body does get 201. *)
Theorem post_handler_sets_author :
  forall (st : Store) (now : Z) (identity : option Z)
         (title body author : Schemas.jfield),
    (snd (Routes.create_post st now identity title body author) = 201 ->
     exists uid user t b a post,
       identity = Some uid /\ User_get st uid = Some user
       /\ User.is_active user = true
       /\ Schemas.PostCreateSchema title body author = Some (t, b, a)
       /\ posts (fst (Routes.create_post st now identity title body author))
          = posts st ++ [post]
       /\ Post.author_id post = Some (User.id user)
       /\ Post.title post = Py.strip t /\ Post.body post = Py.strip b
       /\ Post.is_published post = true)
    /\ (snd (Routes.create_post st now identity title body author) <> 201 ->
        fst (Routes.create_post st now identity title body author) = st)
    /\ (forall uid user t b a,
          identity = Some uid -> User_get st uid = Some user ->
          User.is_active user = true ->
          Schemas.PostCreateSchema title body author = Some (t, b, a) ->
          snd (Routes.create_post st now identity title body author) = 201).
Proof.
  intros st now identity title body author.
  assert (Hpresent : forall t b a,
            Schemas.PostCreateSchema title body author = Some (t, b, a) ->
            Schemas.is_absent title && Schemas.is_absent body
            && Schemas.is_absent author = false).
  { intros t b a H. destruct title; [discriminate| discriminate |reflexivity]. }
  split; [|split].
  - unfold Routes.create_post, Routes.jwt_required_custom.
    destruct identity as [uid|]; [|discriminate].
    destruct (User_get st uid) as [user|] eqn:Hget; [|discriminate].
    destruct (User.is_active user) eqn:Hactive; [|discriminate]. simpl.
    destruct (Schemas.is_absent title && Schemas.is_absent body
              && Schemas.is_absent author); [discriminate|].
    destruct (Schemas.PostCreateSchema title body author) as [[[t b] a]|];
      [|discriminate].
    unfold PostService.create_post. cbn [bind_opt].
    rewrite (User_get_bind_id _ _ _ Hget).
    intros _. exists uid, user, t, b, a. eexists. simpl.
    repeat split; try reflexivity; assumption.
  - unfold Routes.create_post, Routes.jwt_required_custom.
    destruct identity as [uid|]; [|reflexivity].
    destruct (User_get st uid) as [user|] eqn:Hget; [|reflexivity].
    destruct (User.is_active user); [|reflexivity]. simpl.
    destruct (Schemas.is_absent title && Schemas.is_absent body
              && Schemas.is_absent author); [reflexivity|].
    destruct (Schemas.PostCreateSchema title body author) as [[[t b] a]|];
      [|reflexivity].
    unfold PostService.create_post. cbn [bind_opt].
    rewrite (User_get_bind_id _ _ _ Hget).
    simpl. intros H. now elim H.
  - intros uid user t b a -> Hget Hactive Hvalid.
    unfold Routes.create_post.
    rewrite (jwt_required_resolved st uid user _ _ Hget Hactive).
    rewrite (Hpresent t b a Hvalid), Hvalid.
    unfold PostService.create_post. cbn [bind_opt].
    now rewrite (User_get_bind_id _ _ _ Hget).
Qed.

Lemma post_handler_sets_author_witness :
  snd (Routes.create_post one_post 140 (Some 1) (Schemas.Str "Second")
         (Schemas.Str "Another body of text.") (Schemas.Str "Ann")) = 201.
Proof.
  destruct (post_handler_sets_author one_post 140 (Some 1)
              (Schemas.Str "Second") (Schemas.Str "Another body of text.")
              (Schemas.Str "Ann")) as [_ [_ Hcreated]].
  apply (Hcreated 1 ann "Second"%string "Another body of text."%string
                  "Ann"%string); reflexivity.
Defined.

Lemma vote_post_ok (st : Store) (now u p : Z) (b : bool) (post : Post.t) :
  Post_get st p = Some post ->
  exists d, VoteService.vote_post st now u p b
            = (fst (VoteService.vote_post st now u p b), Ok d).
Proof.
  intros Hpost.
  destruct (vote_post_dict st now u p b post Hpost) as [d [Hd _]].
  exists d. rewrite <- Hd. apply surjective_pairing.
Qed.

(** X20. Voting, then asking for the vote status.  For an active user, an
    existing post and a store with at most one vote per pair, the vote
    handler answers 200 to "upvote" and to "downvote", and the vote-status
    handler then reports the state the toggle reached: no vote after a
    removal, and otherwise a vote whose type reads "upvote" or "downvote"
    as the table says; from the no-vote state it reads back the word that
    was sent. *)
Theorem vote_then_status :
  forall (st : Store) (now uid post_id : Z) (user : User.t) (post : Post.t)
         (word : string),
    User_get st uid = Some user ->
    User.is_active user = true ->
    Post_get st post_id = Some post ->
    votes_unique st ->
    word = "upvote"%string \/ word = "downvote"%string ->
    let r := Routes.vote_on_post st now (Some uid) post_id (Schemas.Str word) in
    let status := Routes.get_vote_status (fst r) (Some uid) post_id in
    snd r = 200
    /\ fst r = fst (VoteService.vote_post st now (User.id user) post_id
                      (word =? "upvote")%string)
    /\ match fst (transition (vote_state_of st (User.id user) post_id)
                             (word =? "upvote")%string) with
       | NoVote => status = (200, Some (Routes.mkVoteStatus false None))
       | Upvoted =>
           exists t, status
                     = (200, Some (Routes.mkVoteStatus true
                                     (Some ("upvote"%string, t))))
       | Downvoted =>
           exists t, status
                     = (200, Some (Routes.mkVoteStatus true
                                     (Some ("downvote"%string, t))))
       end
    /\ (vote_state_of st (User.id user) post_id = NoVote ->
        status = (200, Some (Routes.mkVoteStatus true (Some (word, now))))).
Proof.
  intros st now uid post_id user post word Hget Hactive Hpost Huniq Hword r
         status.
  set (b := (word =? "upvote")%string).
  set (st' := fst (VoteService.vote_post st now (User.id user) post_id b)).
  assert (Hr : r = (st', 200)).
  { unfold r, Routes.vote_on_post.
    rewrite (jwt_required_resolved st uid user _ _ Hget Hactive).
    cbn [Schemas.is_absent].
    assert (Hvalid : Schemas.VoteSchema (Schemas.Str word) = Some word).
    { destruct Hword as [-> | ->]; reflexivity. }
    rewrite Hvalid.
    destruct (vote_post_ok st now (User.id user) post_id b post Hpost)
      as [d Hd].
    fold b. rewrite Hd. reflexivity. }
  assert (Hget' : User_get st' uid = Some user).
  { unfold User_get, st'.
    destruct (vote_post_effect st now (User.id user) post_id b) as [-> _].
    exact Hget. }
  assert (Hstatus : status
            = match Vote_first st' (User.id user) post_id with
              | None => (200, Some (Routes.mkVoteStatus false None))
              | Some v =>
                  (200, Some (Routes.mkVoteStatus true
                                (Some (if Vote.vote_type v
                                       then "upvote"%string
                                       else "downvote"%string,
                                       Vote.created_at v))))
              end).
  { unfold status. rewrite Hr. simpl fst. unfold Routes.get_vote_status.
    rewrite (jwt_required_resolved st' uid user _ _ Hget' Hactive).
    unfold VoteService.get_user_vote_on_post.
    rewrite (User_get_bind_id _ _ _ Hget), (Post_get_bind _ _ _ Hpost).
    now destruct (Vote_first st' (User.id user) post_id). }
  rewrite Hr. simpl fst. simpl snd.
  split; [reflexivity|]. split; [reflexivity|]. split.
  - pose proof (vote_post_state st now (User.id user) post_id b post Hpost
                  Huniq) as Hstate.
    fold st' in Hstate. rewrite <- Hstate. rewrite Hstatus.
    unfold vote_state_of.
    destruct (Vote_first st' (User.id user) post_id) as [v|]; [|reflexivity].
    destruct (Vote.vote_type v); simpl; eexists; reflexivity.
  - intros Hno. rewrite Hstatus. unfold st'.
    rewrite (vote_post_store _ _ _ _ _ _ Hpost).
    unfold vote_state_of in Hno.
    destruct (Vote_first st (User.id user) post_id) as [v|] eqn:Hfirst;
      [destruct (Vote.vote_type v); discriminate|].
    rewrite Vote_first_insert by (assumption || reflexivity). simpl.
    unfold b. destruct Hword as [-> | ->]; reflexivity.
Qed.

Lemma vote_then_status_witness :
  Routes.get_vote_status
    (fst (Routes.vote_on_post one_post 150 (Some 1) 1 (Schemas.Str "downvote")))
    (Some 1) 1
  = (200, Some (Routes.mkVoteStatus true (Some ("downvote"%string, 150)))).
Proof.
  apply (vote_then_status one_post 150 1 1 ann first_post "downvote"
           eq_refl eq_refl eq_refl (NoDup_nil _) (or_intror eq_refl)).
  reflexivity.
Defined.

(** ** Sorting on a column *)



(** ** Commenting through the handler *)

(** X23. POST /api/posts/<post_id>/comments.  The handler answers 201
    only to an active user sending a content of 1 to 1000 characters for a
    post that exists, and then exactly one comment is appended, attributed
    to that user and to that post, with the stripped content; every other
    answer leaves the store as it was.  For an active user and a valid
    content: a post id within the signed 64-bit range that no post has is
    answered 404, a post id outside the range is answered 400, and a post
    that exists is answered 201. *)
Theorem comment_handler_attributes_author :
  forall (st : Store) (now : Z) (identity : option Z) (post_id : Z)
         (content : Schemas.jfield),
    (snd (Routes.create_comment st now identity post_id content) = 201 ->
     exists uid user text c,
       identity = Some uid /\ User_get st uid = Some user
       /\ User.is_active user = true
       /\ content = Schemas.Str text
       /\ (1 <= String.length text <= 1000)%nat
       /\ In post_id (map Post.id (posts st))
       /\ comments (fst (Routes.create_comment st now identity post_id content))
          = comments st ++ [c]
       /\ Comment.author_id c = User.id user
       /\ Comment.post_id c = post_id
       /\ Comment.content c = Py.strip text)
    /\ (snd (Routes.create_comment st now identity post_id content) <> 201 ->
        fst (Routes.create_comment st now identity post_id content) = st)
    /\ (forall uid user text,
          identity = Some uid -> User_get st uid = Some user ->
          User.is_active user = true ->
          Schemas.CommentCreateSchema content = Some text ->
          (int64 post_id = true -> Post_get st post_id = None ->
           Routes.create_comment st now identity post_id content = (st, 404))
          /\ (int64 post_id = false ->
              Routes.create_comment st now identity post_id content
              = (st, 400))
          /\ (forall post, Post_get st post_id = Some post ->
              snd (Routes.create_comment st now identity post_id content)
              = 201)).
Proof.
  intros st now identity post_id content.
  assert (Hschema : forall text,
            Schemas.CommentCreateSchema content = Some text ->
            content = Schemas.Str text
            /\ (1 <= String.length text <= 1000)%nat).
  { intros text H. unfold Schemas.CommentCreateSchema, Schemas.required in H.
    destruct content as [| |s]; try discriminate.
    destruct (Schemas.Length 1 (Some 1000%nat) s) eqn:Hlen; [|discriminate].
    inversion H; subst s. split; [reflexivity|].
    unfold Schemas.Length in Hlen. apply andb_true_iff in Hlen.
    destruct Hlen as [H1 H2].
    apply Nat.leb_le in H1. apply Nat.leb_le in H2. lia. }
  split; [|split].
  - unfold Routes.create_comment, Routes.jwt_required_custom.
    destruct identity as [uid|]; [|discriminate].
    destruct (User_get st uid) as [user|] eqn:Hget; [|discriminate].
    destruct (User.is_active user) eqn:Hactive; [|discriminate].
    cbn [negb].
    destruct (Schemas.is_absent content); [discriminate|].
    destruct (Schemas.CommentCreateSchema content) as [text|] eqn:Hvalid;
      [|discriminate].
    destruct (Hschema text eq_refl) as [Hcontent Hlen].
    unfold CommentService.create_comment.
    destruct (bind post_id); [discriminate|].
    destruct (Post_get st post_id) as [post|] eqn:Hpost; [|discriminate].
    rewrite (User_get_bind_id _ _ _ Hget).
    intros _. exists uid, user, text. eexists. simpl.
    repeat split; try reflexivity; try assumption; try lia.
    now apply (Post_get_In _ _ post).
  - unfold Routes.create_comment, Routes.jwt_required_custom.
    destruct identity as [uid|]; [|reflexivity].
    destruct (User_get st uid) as [user|] eqn:Hget; [|reflexivity].
    destruct (User.is_active user); [|reflexivity]. cbn [negb].
    destruct (Schemas.is_absent content); [reflexivity|].
    destruct (Schemas.CommentCreateSchema content) as [text|]; [|reflexivity].
    unfold CommentService.create_comment.
    destruct (bind post_id); [reflexivity|].
    destruct (Post_get st post_id) as [post|]; [|reflexivity].
    rewrite (User_get_bind_id _ _ _ Hget).
    simpl. intros H. now elim H.
  - intros uid user text -> Hget Hactive Hvalid.
    unfold Routes.create_comment.
    rewrite (jwt_required_resolved st uid user _ _ Hget Hactive).
    destruct (Hschema text Hvalid) as [-> _].
    cbn [Schemas.is_absent]. rewrite Hvalid.
    unfold CommentService.create_comment.
    split; [|split].
    + intros Hrange Hpost. now rewrite (bind_none _ Hrange), Hpost.
    + intros Hrange. now rewrite (bind_overflow _ Hrange).
    + intros post Hpost.
      now rewrite (Post_get_bind _ _ _ Hpost), Hpost,
        (User_get_bind_id _ _ _ Hget).
Qed.

Lemma comment_handler_attributes_author_witness :
  Routes.create_comment one_post 160 (Some 1) 9 (Schemas.Str "Nice.")
  = (one_post, 404)
  /\ Routes.create_comment one_post 160 (Some 1) 9223372036854775808
       (Schemas.Str "Nice.")
     = (one_post, 400)
  /\ snd (Routes.create_comment one_post 160 (Some 1) 1 (Schemas.Str "Nice."))
     = 201.
Proof.
  destruct (comment_handler_attributes_author one_post 160 (Some 1) 9
              (Schemas.Str "Nice.")) as [_ [_ Hmissing]].
  destruct (comment_handler_attributes_author one_post 160 (Some 1)
              9223372036854775808 (Schemas.Str "Nice.")) as [_ [_ Hrange]].
  destruct (comment_handler_attributes_author one_post 160 (Some 1) 1
              (Schemas.Str "Nice.")) as [_ [_ Hfound]].
  split; [|split].
  - apply (proj1 (Hmissing 1 ann "Nice."%string
                             eq_refl eq_refl eq_refl eq_refl)); reflexivity.
  - apply (proj1 (proj2 (Hrange 1 ann "Nice."%string
                                eq_refl eq_refl eq_refl eq_refl))).
    reflexivity.
  - apply (proj2 (proj2 (Hfound 1 ann "Nice."%string
                                eq_refl eq_refl eq_refl eq_refl))
                 first_post).
    reflexivity.
Defined.
